(** * Port hole on tube: stress and fatigue calculator (Fat1.py)

    A shallow embedding of the calculation part of [Fat1.py] (lines 18-27
    and 46-131) and the properties its specification states about it.

    Numbers.  The script computes with Python [float]s.  In the main
    embedding they are modelled as real numbers extended with the
    not-a-number value ([pyfloat]): every arithmetic operator is exact, so
    binary64 rounding, underflow, overflow and the infinities are outside
    it.  What is kept of the Python semantics is everything the script's
    control flow depends on: [None], NaN and its comparisons,
    [ZeroDivisionError] of [/] and of [**], [ValueError] of [math.sqrt] and
    [math.log10], the complex result of a negative base raised to a
    non-integral power, and [try]/[except].

    Because the script can abort with [OverflowError] where the exact
    arithmetic cannot, the general theorems are stated about a record that
    the calculation has returned, and they stay away from conclusions that
    rounding or overflow can change (strict inequalities, finiteness,
    closed forms).  Module [Binary64] embeds lines 18-27 and 46-83 on
    primitive binary64 floats, where overflow can be exhibited. *)

From Stdlib Require Import PrimFloat.
From Stdlib Require Import Reals Lra Lia ZArith Bool.

Open Scope R_scope.

(** ** Decisions on real numbers, as booleans *)

Definition Req_bool (x y : R) : bool := if Req_dec_T x y then true else false.
Definition Rlt_bool (x y : R) : bool := if Rlt_dec x y then true else false.
Definition Rle_bool (x y : R) : bool := if Rle_dec x y then true else false.

(** ** Python values *)

(** A Python [float]: a real number or NaN. *)
Inductive pyfloat : Type :=
| NaN
| Fin (r : R).

(** The result of [**] on two floats: a float, or a complex number. *)
Inductive pynum : Type :=
| PFloat (x : pyfloat)
| PComplex (re im : R).

(** What a result variable of the script can hold. *)
Inductive value : Type :=
| VNone
| VFloat (x : pyfloat)
| VComplex (re im : R).

Definition of_option (o : option pyfloat) : value :=
  match o with
  | None => VNone
  | Some x => VFloat x
  end.

Definition of_pynum (n : pynum) : value :=
  match n with
  | PFloat x => VFloat x
  | PComplex re im => VComplex re im
  end.

(** ** Faults *)

(** The exceptions the operators of the script can raise in this model.
    [ComplexOperand] is not a Python exception: it marks that a complex
    number reached arithmetic that the model only defines on floats
    ([calculate_never_raises] shows that this never happens). *)
Inductive exn : Type :=
| ZeroDivisionError
| ValueError
| ComplexOperand.

Inductive outcome (A : Type) : Type :=
| Ok (a : A)
| Raise (e : exn).

Arguments Ok {A} a.
Arguments Raise {A} e.

Definition bind {A B} (m : outcome A) (k : A -> outcome B) : outcome B :=
  match m with
  | Ok a => k a
  | Raise e => Raise e
  end.

Notation "x <- m ;; k" := (bind m (fun x => k))
  (at level 61, m at next level, right associativity).

(** [try: m except Exception: h] as an expression. *)
Definition try_except {A} (m : outcome A) (h : A) : A :=
  match m with
  | Ok a => a
  | Raise _ => h
  end.

(** ** Operators on floats *)

Definition fadd (a b : pyfloat) : pyfloat :=
  match a, b with
  | Fin x, Fin y => Fin (x + y)
  | _, _ => NaN
  end.

Definition fsub (a b : pyfloat) : pyfloat :=
  match a, b with
  | Fin x, Fin y => Fin (x - y)
  | _, _ => NaN
  end.

Definition fmul (a b : pyfloat) : pyfloat :=
  match a, b with
  | Fin x, Fin y => Fin (x * y)
  | _, _ => NaN
  end.

(** [a / b]: a zero divisor raises, whatever [a] is. *)
Definition truediv (a b : pyfloat) : outcome pyfloat :=
  match b with
  | NaN => Ok NaN
  | Fin y =>
      if Req_bool y 0 then Raise ZeroDivisionError
      else match a with
           | NaN => Ok NaN
           | Fin x => Ok (Fin (x / y))
           end
  end.

(** Comparisons: every ordered comparison with NaN is [False], and
    [!=] with NaN is [True]. *)
Definition float_ne (a b : pyfloat) : bool :=
  match a, b with
  | Fin x, Fin y => negb (Req_bool x y)
  | _, _ => true
  end.

Definition float_eq (a b : pyfloat) : bool := negb (float_ne a b).

Definition float_gt (a b : pyfloat) : bool :=
  match a, b with
  | Fin x, Fin y => Rlt_bool y x
  | _, _ => false
  end.

Definition float_ge (a b : pyfloat) : bool :=
  match a, b with
  | Fin x, Fin y => Rle_bool y x
  | _, _ => false
  end.

(** [x in (None, 0)] and [x in (None,)] for a variable that holds [None]
    or a float. *)
Definition in_None_0 (x : option pyfloat) : bool :=
  match x with
  | None => true
  | Some f => float_eq f (Fin 0)
  end.

Definition in_None (x : option pyfloat) : bool :=
  match x with
  | None => true
  | Some _ => false
  end.

(** [math.sqrt] *)
Definition math_sqrt (x : pyfloat) : outcome pyfloat :=
  match x with
  | NaN => Ok NaN
  | Fin r => if Rlt_bool r 0 then Raise ValueError else Ok (Fin (sqrt r))
  end.

(** [math.log10] *)
Definition log10 (r : R) : R := ln r / ln 10.

Definition math_log10 (x : pyfloat) : outcome pyfloat :=
  match x with
  | NaN => Ok NaN
  | Fin r => if Rlt_bool 0 r then Ok (Fin (log10 r)) else Raise ValueError
  end.

(** [v ** w] on floats, after CPython's [float_pow] (the cases of an
    infinite operand left out): anything to the power 0 is 1; a zero base
    with a negative exponent raises; a negative base with a non-integral
    exponent gives the principal complex power; a negative base with an
    integral exponent gives the power of its absolute value, negated when
    the exponent is odd. *)
Definition is_integral (w : R) : bool := Req_bool w (IZR (Int_part w)).

Definition is_odd_integer (w : R) : bool := is_integral w && Z.odd (Int_part w).

Definition float_pow (v w : pyfloat) : outcome pynum :=
  match w with
  | NaN =>
      match v with
      | NaN => Ok (PFloat NaN)
      | Fin iv => Ok (PFloat (if Req_bool iv 1 then Fin 1 else NaN))
      end
  | Fin iw =>
      if Req_bool iw 0 then Ok (PFloat (Fin 1))
      else
        match v with
        | NaN => Ok (PFloat NaN)
        | Fin iv =>
            if Req_bool iv 0 then
              if Rlt_bool iw 0 then Raise ZeroDivisionError
              else Ok (PFloat (Fin 0))
            else if Rlt_bool iv 0 then
              if negb (is_integral iw) then
                Ok (PComplex (Rpower (- iv) iw * cos (PI * iw))
                             (Rpower (- iv) iw * sin (PI * iw)))
              else if Req_bool (- iv) 1 then
                Ok (PFloat (Fin (if is_odd_integer iw then -1 else 1)))
              else
                Ok (PFloat (Fin (if is_odd_integer iw
                                 then - Rpower (- iv) iw
                                 else Rpower (- iv) iw)))
            else if Req_bool iv 1 then Ok (PFloat (Fin 1))
            else Ok (PFloat (Fin (Rpower iv iw)))
        end
  end.

(** A power that is used as a float operand. *)
Definition as_float (n : pynum) : outcome pyfloat :=
  match n with
  | PFloat x => Ok x
  | PComplex _ _ => Raise ComplexOperand
  end.

Definition pow (v w : pyfloat) : outcome pyfloat :=
  n <- float_pow v w ;; as_float n.

Declare Scope pyfloat_scope.
Delimit Scope pyfloat_scope with py.
Infix "+" := fadd : pyfloat_scope.
Infix "-" := fsub : pyfloat_scope.
Infix "*" := fmul : pyfloat_scope.
Infix "/" := truediv : pyfloat_scope.

(** ** The helpers of the script (lines 18-27) *)

(** [safe_div(a, b, fallback)] (lines 18-22).  The fallback is NaN by
    default and [None] at one call, so the result type is a parameter:
    [inj] injects a quotient into it. *)
Definition safe_div_with {A} (inj : pyfloat -> A)
    (a b : pyfloat) (fallback : A) : A :=
  try_except
    (if float_ne b (Fin 0) then q <- (a / b)%py ;; Ok (inj q)
     else Ok fallback)
    fallback.

Definition safe_div (a b : pyfloat) : pyfloat :=
  safe_div_with (fun q => q) a b NaN.

Definition safe_div_None (a b : pyfloat) : option pyfloat :=
  safe_div_with Some a b None.

(** The test of [fmt] (line 25) under which a value is shown as the
    placeholder: [None] or a NaN float (the model has no infinities). *)
Definition not_available (x : value) : bool :=
  match x with
  | VNone => true
  | VFloat NaN => true
  | VFloat (Fin _) => false
  | VComplex _ _ => false
  end.

(** A value that holds a real number. *)
Definition defined (x : value) : Prop := exists r, x = VFloat (Fin r).

(** ** Inputs and results *)

(** The values read from the widgets (lines 39-43, 53-54, 62-69). *)
Record inputs : Type := mkInputs {
  in_p : R;  in_D : R;  in_Do : R;  in_d : R;  in_dh : R;
  in_Sut : R;  in_Syt : R;
  in_ka : R;  in_kb : R;  in_kc : R;  in_kd : R;
  in_ke : R;  in_kh : R;  in_kl : R;  in_km : R
}.

(** The fourteen derived variables, as left by lines 46-131. *)
Record results : Type := mkResults {
  out_t : value;  out_Sh : value;  out_Sl : value;  out_Sc : value;
  out_Sa : value;  out_Sm : value;  out_Se : value;
  out_Sp : value;  out_Sq : value;  out_B : value;  out_A : value;
  out_static_fos : value;  out_fatigue_fos : value;
  out_life_cycles : value
}.

(** ** The calculations (lines 46-131), statement by statement *)

Section Calculations.

Local Open Scope pyfloat_scope.

(** line 46: [t = (Do - D) / 2.0] *)
Definition calc_t (Do D : pyfloat) : outcome pyfloat :=
  (Do - D) / Fin 2.

(** line 76: [Sh = safe_div(p * (t + 0.57 * D), 100.0 * t)] *)
Definition calc_Sh (p D t : pyfloat) : pyfloat :=
  safe_div (p * (t + Fin 0.57 * D)) (Fin 100 * t).

(** line 79: [Sl = safe_div(p * (D**2), 100.0 * (Do**2 - D**2))] *)
Definition calc_Sl (p D Do : pyfloat) : outcome pyfloat :=
  D2 <- pow D (Fin 2) ;;
  Do2 <- pow Do (Fin 2) ;;
  D2' <- pow D (Fin 2) ;;
  Ok (safe_div (p * D2) (Fin 100 * (Do2 - D2'))).

(** lines 82-83: [Sc_term = Sh**2 + Sl**2 - Sh * Sl];
    [Sc = math.sqrt(Sc_term) if Sc_term >= 0 else float("nan")] *)
Definition calc_Sc_term (Sh Sl : pyfloat) : outcome pyfloat :=
  Sh2 <- pow Sh (Fin 2) ;;
  Sl2 <- pow Sl (Fin 2) ;;
  Ok (Sh2 + Sl2 - Sh * Sl).

Definition calc_Sc (Sh Sl : pyfloat) : outcome pyfloat :=
  Sc_term <- calc_Sc_term Sh Sl ;;
  if float_ge Sc_term (Fin 0) then math_sqrt Sc_term else Ok NaN.

(** line 90: [Se = 0.5 * ka * kb * kc * kd * ke * kh * kl * km * Sut] *)
Definition calc_Se (ka kb kc kd ke kh kl km Sut : pyfloat) : pyfloat :=
  Fin 0.5 * ka * kb * kc * kd * ke * kh * kl * km * Sut.

(** lines 93-98: the permissible stress [Sp] *)
Definition calc_Sp (Se Sa Sm Sut : pyfloat) : outcome (option pyfloat) :=
  let den_perm := safe_div_None (Fin 1) Se in
  match den_perm with
  | Some den_perm =>
      if float_ne Sm (Fin 0) && float_ne Sut (Fin 0) then
        den2 <- Sa / (Sm * Sut) ;;
        let denom := den_perm + den2 in
        Ok (Some (safe_div (Fin 1) denom))
      else Ok None
  | None => Ok None
  end.

(** lines 101-103: the equivalent stress [Sq] *)
Definition calc_Sq (Sm Sa Sut : pyfloat) : outcome (option pyfloat) :=
  if float_ne Sut (Fin 0) then
    q <- Sa / Sut ;;
    Ok (Some (safe_div Sm (Fin 1 - q)))
  else Ok None.

(** lines 106-108: the Basquin slope [B] *)
Definition calc_B (Se Sut : pyfloat) : outcome (option pyfloat) :=
  if float_gt Se (Fin 0) && float_gt (Fin 0.9 * Sut) (Fin 0) then
    l1 <- math_log10 Se ;;
    l2 <- math_log10 (Fin 0.9 * Sut) ;;
    b <- (l1 - l2) / Fin 3 ;;
    Ok (Some b)
  else Ok None.

(** lines 111-113: the Basquin constant [A] *)
Definition calc_A (Se : pyfloat) (B : option pyfloat)
  : outcome (option pyfloat) :=
  match B with
  | Some b =>
      pw <- pow (Fin 10) (Fin 6 * b) ;;
      Ok (Some (safe_div Se pw))
  | None => Ok None
  end.

(** lines 116-118: [static_fos] *)
Definition calc_static_fos (Sp : option pyfloat) (Sa : pyfloat)
  : outcome (option pyfloat) :=
  match Sp with
  | Some sp =>
      if negb (in_None_0 (Some Sa)) then q <- sp / Sa ;; Ok (Some q)
      else Ok None
  | None => Ok None
  end.

(** lines 121-123: [fatigue_fos] *)
Definition calc_fatigue_fos (Sq : option pyfloat) (Sa : pyfloat)
  : outcome (option pyfloat) :=
  match Sq with
  | Some sq =>
      if negb (in_None_0 (Some Sa)) then q <- sq / Sa ;; Ok (Some q)
      else Ok None
  | None => Ok None
  end.

(** lines 126-131: [life_cycles]; the power is the only statement of the
    script that runs inside a [try]. *)
Definition calc_life_cycles (A B Sq : option pyfloat) : value :=
  if negb (in_None_0 A) && negb (in_None_0 B) && negb (in_None Sq) then
    match A, B, Sq with
    | Some a, Some b, Some sq =>
        try_except
          (base <- sq / a ;;
           e <- Fin 1 / b ;;
           n <- float_pow base e ;;
           Ok (of_pynum n))
          (VFloat NaN)
    | _, _, _ => VNone
    end
  else VNone.

(** The whole of lines 46-131. *)
Definition calculate (i : inputs) : outcome results :=
  let p := Fin (in_p i) in
  let D := Fin (in_D i) in
  let Do := Fin (in_Do i) in
  let Sut := Fin (in_Sut i) in
  t <- calc_t Do D ;;
  let Sh := calc_Sh p D t in
  Sl <- calc_Sl p D Do ;;
  Sc <- calc_Sc Sh Sl ;;
  let Sa := safe_div Sc (Fin 2) in
  let Sm := safe_div Sc (Fin 2) in
  let Se := calc_Se (Fin (in_ka i)) (Fin (in_kb i)) (Fin (in_kc i))
                    (Fin (in_kd i)) (Fin (in_ke i)) (Fin (in_kh i))
                    (Fin (in_kl i)) (Fin (in_km i)) Sut in
  Sp <- calc_Sp Se Sa Sm Sut ;;
  Sq <- calc_Sq Sm Sa Sut ;;
  B <- calc_B Se Sut ;;
  A <- calc_A Se B ;;
  static_fos <- calc_static_fos Sp Sa ;;
  fatigue_fos <- calc_fatigue_fos Sq Sa ;;
  let life_cycles := calc_life_cycles A B Sq in
  Ok {| out_t := VFloat t;  out_Sh := VFloat Sh;  out_Sl := VFloat Sl;
        out_Sc := VFloat Sc;  out_Sa := VFloat Sa;  out_Sm := VFloat Sm;
        out_Se := VFloat Se;
        out_Sp := of_option Sp;  out_Sq := of_option Sq;
        out_B := of_option B;  out_A := of_option A;
        out_static_fos := of_option static_fos;
        out_fatigue_fos := of_option fatigue_fos;
        out_life_cycles := life_cycles |}.

End Calculations.

(** ** Closed forms and scenarios *)

(** The variables that never depend on a fallible statement. *)
Definition Se_of (i : inputs) : R :=
  0.5 * in_ka i * in_kb i * in_kc i * in_kd i * in_ke i * in_kh i
  * in_kl i * in_km i * in_Sut i.

Definition t_of (i : inputs) : R := (in_Do i - in_D i) / 2.

Definition Sh_of (i : inputs) : pyfloat :=
  calc_Sh (Fin (in_p i)) (Fin (in_D i)) (Fin (t_of i)).

Definition Sl_of (i : inputs) : pyfloat :=
  safe_div (Fin (in_p i * (in_D i * in_D i)))
           (Fin (100 * (in_Do i * in_Do i - in_D i * in_D i))).

(** The formulas of the comments at lines 75, 78 and 81, on the reals. *)
Definition hoop (i : inputs) : R :=
  in_p i * (t_of i + 0.57 * in_D i) / (100 * t_of i).

Definition longitudinal (i : inputs) : R :=
  in_p i * (in_D i * in_D i)
  / (100 * (in_Do i * in_Do i - in_D i * in_D i)).

Definition combined (i : inputs) : R :=
  sqrt (hoop i * hoop i + longitudinal i * longitudinal i
        - hoop i * longitudinal i).

(** The default values of the widgets. *)
Definition nominal : inputs :=
  {| in_p := 207;  in_D := 75;  in_Do := 87;  in_d := 35;  in_dh := 9;
     in_Sut := 60;  in_Syt := 50;
     in_ka := 0.75;  in_kb := 1;  in_kc := 0.814;  in_kd := 1;
     in_ke := 1;  in_kh := 1;  in_kl := 0.85;  in_km := 1 |}.

(** [x] holds a real number within relative tolerance 1e-6 of [v]. *)
Definition within_tol (x : value) (v : R) : Prop :=
  exists r, x = VFloat (Fin r) /\ Rabs (r - v) <= 1e-6 * Rabs v.

(** The defaults with ten times the pressure. *)
Definition high_pressure : inputs :=
  {| in_p := 2070;  in_D := 75;  in_Do := 87;  in_d := 35;  in_dh := 9;
     in_Sut := 60;  in_Syt := 50;
     in_ka := 0.75;  in_kb := 1;  in_kc := 0.814;  in_kd := 1;
     in_ke := 1;  in_kh := 1;  in_kl := 0.85;  in_km := 1 |}.

(** The defaults with the outer diameter equal to the bore. *)
Definition zero_wall : inputs :=
  {| in_p := 207;  in_D := 75;  in_Do := 75;  in_d := 35;  in_dh := 9;
     in_Sut := 60;  in_Syt := 50;
     in_ka := 0.75;  in_kb := 1;  in_kc := 0.814;  in_kd := 1;
     in_ke := 1;  in_kh := 1;  in_kl := 0.85;  in_km := 1 |}.

(** Inputs whose stress amplitude equals the tensile strength:
    [Sh = 2], [Sl = 0], [Sc = 2], [Sa = 1 = Sut]. *)
Definition at_strength : inputs :=
  {| in_p := 200;  in_D := 0;  in_Do := 2;  in_d := 35;  in_dh := 9;
     in_Sut := 1;  in_Syt := 50;
     in_ka := 0.75;  in_kb := 1;  in_kc := 0.814;  in_kd := 1;
     in_ke := 1;  in_kh := 1;  in_kl := 0.85;  in_km := 1 |}.

(** The same record with another pressure. *)
Definition with_p (i : inputs) (p : R) : inputs :=
  {| in_p := p;  in_D := in_D i;  in_Do := in_Do i;  in_d := in_d i;
     in_dh := in_dh i;  in_Sut := in_Sut i;  in_Syt := in_Syt i;
     in_ka := in_ka i;  in_kb := in_kb i;  in_kc := in_kc i;
     in_kd := in_kd i;  in_ke := in_ke i;  in_kh := in_kh i;
     in_kl := in_kl i;  in_km := in_km i |}.

(** Two records that agree on every input but [d], [dh] and [Syt]. *)
Definition same_but_d_dh_Syt (i1 i2 : inputs) : Prop :=
  in_p i1 = in_p i2 /\ in_D i1 = in_D i2 /\ in_Do i1 = in_Do i2 /\
  in_Sut i1 = in_Sut i2 /\
  in_ka i1 = in_ka i2 /\ in_kb i1 = in_kb i2 /\ in_kc i1 = in_kc i2 /\
  in_kd i1 = in_kd i2 /\ in_ke i1 = in_ke i2 /\ in_kh i1 = in_kh i2 /\
  in_kl i1 = in_kl i2 /\ in_km i1 = in_km i2.

(** The defaults with other values for the three unused inputs. *)
Definition nominal_other_unused : inputs :=
  {| in_p := 207;  in_D := 75;  in_Do := 87;  in_d := 40;  in_dh := 12;
     in_Sut := 60;  in_Syt := 30;
     in_ka := 0.75;  in_kb := 1;  in_kc := 0.814;  in_kd := 1;
     in_ke := 1;  in_kh := 1;  in_kl := 0.85;  in_km := 1 |}.

(** [zero_wall] with a zero tensile strength. *)
Definition zero_wall_zero_strength : inputs :=
  {| in_p := 207;  in_D := 75;  in_Do := 75;  in_d := 35;  in_dh := 9;
     in_Sut := 0;  in_Syt := 50;
     in_ka := 0.75;  in_kb := 1;  in_kc := 0.814;  in_kd := 1;
     in_ke := 1;  in_kh := 1;  in_kl := 0.85;  in_km := 1 |}.


(** ** Ranges and agreement of input records *)

(** The ranges of the eight sliders (lines 62-69): every factor lies in
    [0, 1], but the surface hardening factor [kh], which lies in [0, 2]. *)
Definition in_slider_ranges (i : inputs) : Prop :=
  0 <= in_ka i <= 1 /\ 0 <= in_kb i <= 1 /\ 0 <= in_kc i <= 1 /\
  0 <= in_kd i <= 1 /\ 0 <= in_ke i <= 1 /\ 0 <= in_kh i <= 2 /\
  0 <= in_kl i <= 1 /\ 0 <= in_km i <= 1.

(** Two records with the same pressure and diameters. *)
Definition same_geometry (i1 i2 : inputs) : Prop :=
  in_p i1 = in_p i2 /\ in_D i1 = in_D i2 /\ in_Do i1 = in_Do i2.

(** Two records with the same tensile strength and K-factors. *)
Definition same_material (i1 i2 : inputs) : Prop :=
  in_Sut i1 = in_Sut i2 /\
  in_ka i1 = in_ka i2 /\ in_kb i1 = in_kb i2 /\ in_kc i1 = in_kc i2 /\
  in_kd i1 = in_kd i2 /\ in_ke i1 = in_ke i2 /\ in_kh i1 = in_kh i2 /\
  in_kl i1 = in_kl i2 /\ in_km i1 = in_km i2.

(** The defaults at twice the tensile strength and with all K-factors
    halved but [ka]. *)
Definition other_material : inputs :=
  {| in_p := 207;  in_D := 75;  in_Do := 87;  in_d := 35;  in_dh := 9;
     in_Sut := 120;  in_Syt := 50;
     in_ka := 0.75;  in_kb := 0.5;  in_kc := 0.5;  in_kd := 0.5;
     in_ke := 0.5;  in_kh := 0.5;  in_kl := 0.5;  in_km := 0.5 |}.

(** The defaults in another tube at another pressure. *)
Definition other_geometry : inputs :=
  {| in_p := 100;  in_D := 50;  in_Do := 60;  in_d := 35;  in_dh := 9;
     in_Sut := 60;  in_Syt := 50;
     in_ka := 0.75;  in_kb := 1;  in_kc := 0.814;  in_kd := 1;
     in_ke := 1;  in_kh := 1;  in_kl := 0.85;  in_km := 1 |}.

(** The defaults with the reliability factor [kc] set to 0. *)
Definition zero_factor : inputs :=
  {| in_p := 207;  in_D := 75;  in_Do := 87;  in_d := 35;  in_dh := 9;
     in_Sut := 60;  in_Syt := 50;
     in_ka := 0.75;  in_kb := 1;  in_kc := 0;  in_kd := 1;
     in_ke := 1;  in_kh := 1;  in_kl := 0.85;  in_km := 1 |}.

(** The defaults with a zero tensile strength. *)
Definition zero_strength : inputs :=
  {| in_p := 207;  in_D := 75;  in_Do := 87;  in_d := 35;  in_dh := 9;
     in_Sut := 0;  in_Syt := 50;
     in_ka := 0.75;  in_kb := 1;  in_kc := 0.814;  in_kd := 1;
     in_ke := 1;  in_kh := 1;  in_kl := 0.85;  in_km := 1 |}.


(** ** Negation of a field *)

(** [-x] for a float and for the value of a field: the sign of a real
    number changes, NaN stays NaN. *)
Definition fneg (a : pyfloat) : pyfloat :=
  match a with
  | NaN => NaN
  | Fin x => Fin (- x)
  end.

Definition negate (x : value) : value :=
  match x with
  | VFloat a => VFloat (fneg a)
  | other => other
  end.

(** The defaults with the outer diameter the opposite of the bore. *)
Definition opposite_diameters : inputs :=
  {| in_p := 207;  in_D := 75;  in_Do := -75;  in_d := 35;  in_dh := 9;
     in_Sut := 60;  in_Syt := 50;
     in_ka := 0.75;  in_kb := 1;  in_kc := 0.814;  in_kd := 1;
     in_ke := 1;  in_kh := 1;  in_kl := 0.85;  in_km := 1 |}.

(** ** Lines 18-27 and 46-83 on binary64 floats *)

(* Decimal literals denote the nearest binary64 value, as in Python. *)
Set Warnings "-inexact-float".

Module Binary64.

Local Open Scope float_scope.

(** The outcome of a statement: a value, or [OverflowError]. *)
Inductive result (A : Type) : Type :=
| Value (a : A)
| OverflowError.

Arguments Value {A} a.
Arguments OverflowError {A}.

Definition bind {A B} (m : result A) (k : A -> result B) : result B :=
  match m with
  | Value a => k a
  | OverflowError => OverflowError
  end.

(** [x ** 2]: NaN and the infinities are answered directly; a finite
    operand goes to the C library's [pow], taken here as the correctly
    rounded square, and an infinite result raises [OverflowError]. *)
Definition float_pow_2 (x : float) : result float :=
  if is_nan x then Value x
  else if is_infinity x then Value infinity
  else
    let ix := x * x in
    if is_infinity ix then OverflowError else Value ix.

(** [safe_div(a, b)] (lines 18-22) with the default fallback: for
    [b != 0] the division of two floats raises nothing. *)
Definition safe_div (a b : float) : float :=
  if negb (b =? 0) then a / b else nan.

(** The test of [fmt] (line 25) on a float. *)
Definition not_available (x : float) : bool :=
  is_nan x || is_infinity x.

(** line 46 *)
Definition calc_t (Do D : float) : float := (Do - D) / 2.

(** line 76 *)
Definition calc_Sh (p D t : float) : float :=
  safe_div (p * (t + 0.57 * D)) (100 * t).

(** line 79 *)
Definition calc_Sl (p D Do : float) : result float :=
  bind (float_pow_2 D) (fun D2 =>
  bind (float_pow_2 Do) (fun Do2 =>
  bind (float_pow_2 D) (fun D2' =>
  Value (safe_div (p * D2) (100 * (Do2 - D2')))))).

(** lines 82-83 *)
Definition calc_Sc (Sh Sl : float) : result float :=
  bind (float_pow_2 Sh) (fun Sh2 =>
  bind (float_pow_2 Sl) (fun Sl2 =>
  let Sc_term := Sh2 + Sl2 - Sh * Sl in
  Value (if 0 <=? Sc_term then PrimFloat.sqrt Sc_term else nan))).

(** The default diameters at the pressure 1.6e155. *)
Definition p_large : float := 1.6e155.
Definition D_default : float := 75.
Definition Do_default : float := 87.

End Binary64.
(** * Properties *)

(** ** Decisions on real numbers *)

Lemma Req_bool_true x y : Req_bool x y = true <-> x = y.
Proof. unfold Req_bool; destruct (Req_dec_T x y); split; congruence. Qed.

Lemma Req_bool_false x y : Req_bool x y = false <-> x <> y.
Proof. unfold Req_bool; destruct (Req_dec_T x y); split; congruence. Qed.

Lemma Rlt_bool_true x y : Rlt_bool x y = true <-> x < y.
Proof. unfold Rlt_bool; destruct (Rlt_dec x y); split; congruence. Qed.

Lemma Rlt_bool_false x y : Rlt_bool x y = false <-> y <= x.
Proof.
  unfold Rlt_bool; destruct (Rlt_dec x y); split; try congruence; lra.
Qed.

Lemma Rle_bool_true x y : Rle_bool x y = true <-> x <= y.
Proof. unfold Rle_bool; destruct (Rle_dec x y); split; congruence. Qed.

Lemma Rle_bool_false x y : Rle_bool x y = false <-> y < x.
Proof.
  unfold Rle_bool; destruct (Rle_dec x y); split; try congruence; lra.
Qed.


(** ** The error monad *)

Lemma bind_Ok {A B} (m : outcome A) (k : A -> outcome B) (b : B) :
  bind m k = Ok b -> exists a, m = Ok a /\ k a = Ok b.
Proof.
  destruct m as [a | e]; simpl; intros H; [eauto | discriminate].
Qed.

Ltac inv_bind H :=
  let a := fresh "v" in
  let Ha := fresh "E" in
  apply bind_Ok in H; destruct H as (a & Ha & H).

(** ** Operators *)

Lemma Int_part_IZR (z : Z) : Int_part (IZR z) = z.
Proof. symmetry; apply Int_part_spec; lra. Qed.

Lemma is_integral_IZR (z : Z) : is_integral (IZR z) = true.
Proof. unfold is_integral; rewrite Int_part_IZR; now apply Req_bool_true. Qed.

Lemma is_integral_false (w : R) :
  (forall z : Z, w <> IZR z) -> is_integral w = false.
Proof. intros H; apply Req_bool_false, H. Qed.

Lemma Rpower_2 (x : R) : 0 < x -> Rpower x 2 = x * x.
Proof.
  intros Hx; replace 2 with (INR 2) by (simpl; lra).
  rewrite Rpower_pow by assumption; simpl; ring.
Qed.

(** [x ** 2] is the square, for every float. *)
Lemma pow_2 (x : R) : pow (Fin x) (Fin 2) = Ok (Fin (x * x)).
Proof.
  unfold pow, float_pow.
  replace (Req_bool 2 0) with false by (symmetry; apply Req_bool_false; lra).
  destruct (Req_bool x 0) eqn:E0.
  - apply Req_bool_true in E0; subst x.
    replace (Rlt_bool 2 0) with false by (symmetry; apply Rlt_bool_false; lra).
    simpl; do 2 f_equal; ring.
  - apply Req_bool_false in E0.
    destruct (Rlt_bool x 0) eqn:Elt.
    + apply Rlt_bool_true in Elt.
      rewrite (is_integral_IZR 2); simpl negb; cbv iota.
      unfold is_odd_integer; rewrite (is_integral_IZR 2), (Int_part_IZR 2).
      simpl andb; cbv iota.
      destruct (Req_bool (- x) 1) eqn:E1; simpl.
      * apply Req_bool_true in E1; do 2 f_equal; nra.
      * rewrite Rpower_2 by lra; do 2 f_equal; ring.
    + apply Rlt_bool_false in Elt.
      destruct (Req_bool x 1) eqn:E1; simpl.
      * apply Req_bool_true in E1; subst x; do 2 f_equal; ring.
      * rewrite Rpower_2 by lra; reflexivity.
Qed.

Lemma pow_2_NaN : pow NaN (Fin 2) = Ok NaN.
Proof.
  unfold pow, float_pow.
  replace (Req_bool 2 0) with false by (symmetry; apply Req_bool_false; lra).
  reflexivity.
Qed.

(** [10 ** y] is a positive float, for every real [y]. *)
Lemma pow_10 (y : R) : pow (Fin 10) (Fin y) = Ok (Fin (Rpower 10 y)).
Proof.
  unfold pow, float_pow.
  destruct (Req_bool y 0) eqn:Ey.
  - apply Req_bool_true in Ey; subst y; simpl.
    rewrite Rpower_O by lra; reflexivity.
  - replace (Req_bool 10 0) with false
      by (symmetry; apply Req_bool_false; lra).
    replace (Rlt_bool 10 0) with false
      by (symmetry; apply Rlt_bool_false; lra).
    replace (Req_bool 10 1) with false
      by (symmetry; apply Req_bool_false; lra).
    reflexivity.
Qed.

Lemma pow_10_NaN : pow (Fin 10) NaN = Ok NaN.
Proof.
  unfold pow, float_pow.
  replace (Req_bool 10 1) with false
    by (symmetry; apply Req_bool_false; lra).
  reflexivity.
Qed.

Lemma Rpower_pos (x y : R) : 0 < Rpower x y.
Proof. unfold Rpower; apply exp_pos. Qed.

Lemma truediv_Fin (x y : R) :
  y <> 0 -> truediv (Fin x) (Fin y) = Ok (Fin (x / y)).
Proof.
  intros Hy; unfold truediv.
  now replace (Req_bool y 0) with false by (symmetry; now apply Req_bool_false).
Qed.

Lemma truediv_NaN_l (b : pyfloat) :
  float_ne b (Fin 0) = true -> truediv NaN b = Ok NaN.
Proof.
  destruct b as [| y]; simpl; [reflexivity |].
  now destruct (Req_bool y 0).
Qed.

Lemma truediv_NaN_r (a : pyfloat) : truediv a NaN = Ok NaN.
Proof. reflexivity. Qed.

(** A division by a float that compares different from 0 never raises. *)
Lemma truediv_total (a b : pyfloat) :
  float_ne b (Fin 0) = true -> exists q, truediv a b = Ok q.
Proof.
  destruct b as [| y]; simpl; [eauto |].
  destruct (Req_bool y 0); simpl; [discriminate |].
  destruct a; eauto.
Qed.

Lemma float_ne_Fin (x y : R) : float_ne (Fin x) (Fin y) = true <-> x <> y.
Proof.
  simpl; rewrite negb_true_iff; apply Req_bool_false.
Qed.

Lemma float_ne_Fin_false (x y : R) :
  float_ne (Fin x) (Fin y) = false <-> x = y.
Proof.
  simpl; rewrite negb_false_iff; apply Req_bool_true.
Qed.

(** ** [safe_div] *)

Lemma safe_div_with_Fin {A} (inj : pyfloat -> A) (x y : R) (fb : A) :
  safe_div_with inj (Fin x) (Fin y) fb =
  if Req_bool y 0 then fb else inj (Fin (x / y)).
Proof.
  unfold safe_div_with, truediv; simpl.
  destruct (Req_bool y 0); reflexivity.
Qed.

Lemma safe_div_Fin (x y : R) :
  y <> 0 -> safe_div (Fin x) (Fin y) = Fin (x / y).
Proof.
  intros Hy; unfold safe_div; rewrite safe_div_with_Fin.
  now replace (Req_bool y 0) with false by (symmetry; now apply Req_bool_false).
Qed.

Lemma safe_div_zero (a : pyfloat) : safe_div a (Fin 0) = NaN.
Proof.
  unfold safe_div, safe_div_with; simpl.
  now replace (Req_bool 0 0) with true by (symmetry; now apply Req_bool_true).
Qed.

Lemma safe_div_NaN_l (b : pyfloat) : safe_div NaN b = NaN.
Proof.
  unfold safe_div, safe_div_with.
  destruct b as [| y]; simpl; [reflexivity |].
  destruct (Req_bool y 0); reflexivity.
Qed.

Lemma safe_div_NaN_r (a : pyfloat) : safe_div a NaN = NaN.
Proof. reflexivity. Qed.

(** ** The statements of the script, one by one *)

Lemma calc_t_Fin (Do D : R) :
  calc_t (Fin Do) (Fin D) = Ok (Fin ((Do - D) / 2)).
Proof. unfold calc_t; simpl fsub; apply truediv_Fin; lra. Qed.

Lemma calc_Sl_Fin (p D Do : R) :
  calc_Sl (Fin p) (Fin D) (Fin Do) =
  Ok (safe_div (Fin (p * (D * D))) (Fin (100 * (Do * Do - D * D)))).
Proof. unfold calc_Sl; rewrite !pow_2; reflexivity. Qed.

Lemma sq_term_nonneg (sh sl : R) : 0 <= sh * sh + sl * sl - sh * sl.
Proof. nra. Qed.

Lemma calc_Sc_term_Fin (sh sl : R) :
  calc_Sc_term (Fin sh) (Fin sl) = Ok (Fin (sh * sh + sl * sl - sh * sl)).
Proof. unfold calc_Sc_term; rewrite !pow_2; reflexivity. Qed.

Lemma calc_Sc_Fin (sh sl : R) :
  calc_Sc (Fin sh) (Fin sl) = Ok (Fin (sqrt (sh * sh + sl * sl - sh * sl))).
Proof.
  unfold calc_Sc; rewrite calc_Sc_term_Fin; simpl.
  pose proof (sq_term_nonneg sh sl) as Hnn.
  replace (Rle_bool 0 (sh * sh + sl * sl - sh * sl)) with true
    by (symmetry; now apply Rle_bool_true).
  replace (Rlt_bool (sh * sh + sl * sl - sh * sl) 0) with false
    by (symmetry; now apply Rlt_bool_false).
  reflexivity.
Qed.

Lemma calc_Sc_NaN_l (Sl : pyfloat) : calc_Sc NaN Sl = Ok NaN.
Proof.
  unfold calc_Sc, calc_Sc_term; rewrite pow_2_NaN.
  destruct Sl as [| sl]; [rewrite pow_2_NaN | rewrite pow_2]; reflexivity.
Qed.

Lemma calc_Sc_NaN_r (Sh : pyfloat) : calc_Sc Sh NaN = Ok NaN.
Proof.
  unfold calc_Sc, calc_Sc_term; rewrite pow_2_NaN.
  destruct Sh as [| sh]; [rewrite pow_2_NaN | rewrite pow_2]; reflexivity.
Qed.

Lemma calc_Sc_total (Sh Sl : pyfloat) : exists Sc, calc_Sc Sh Sl = Ok Sc.
Proof.
  destruct Sh as [| sh]; [rewrite calc_Sc_NaN_l; eauto |].
  destruct Sl as [| sl]; [rewrite calc_Sc_NaN_r; eauto |].
  rewrite calc_Sc_Fin; eauto.
Qed.

Lemma float_ne_mul (a b : pyfloat) :
  float_ne a (Fin 0) = true -> float_ne b (Fin 0) = true ->
  float_ne (fmul a b) (Fin 0) = true.
Proof.
  destruct a as [| x], b as [| y]; simpl; try reflexivity.
  rewrite !negb_true_iff, !Req_bool_false; nra.
Qed.

Lemma calc_Sp_total (Se Sa Sm Sut : pyfloat) :
  exists Sp, calc_Sp Se Sa Sm Sut = Ok Sp.
Proof.
  unfold calc_Sp.
  destruct (safe_div_None (Fin 1) Se) as [den_perm |]; [| eauto].
  destruct (float_ne Sm (Fin 0)) eqn:Em; simpl; [| eauto].
  destruct (float_ne Sut (Fin 0)) eqn:Eu; simpl; [| eauto].
  destruct (truediv_total Sa (fmul Sm Sut)) as [q Hq];
    [now apply float_ne_mul |].
  rewrite Hq; simpl; eauto.
Qed.

Lemma calc_Sq_total (Sm Sa Sut : pyfloat) :
  exists Sq, calc_Sq Sm Sa Sut = Ok Sq.
Proof.
  unfold calc_Sq.
  destruct (float_ne Sut (Fin 0)) eqn:Eu; [| eauto].
  destruct (truediv_total Sa Sut Eu) as [q Hq]; rewrite Hq; simpl; eauto.
Qed.

(** The guard of line 107, as a proposition on the real inputs. *)
Lemma B_guard_Fin (se sut : R) :
  float_gt (Fin se) (Fin 0) && float_gt (fmul (Fin 0.9) (Fin sut)) (Fin 0)
  = true <-> 0 < se /\ 0 < 0.9 * sut.
Proof.
  simpl; rewrite andb_true_iff, !Rlt_bool_true; reflexivity.
Qed.

Lemma calc_B_Fin (se sut : R) :
  0 < se -> 0 < 0.9 * sut ->
  calc_B (Fin se) (Fin sut) =
  Ok (Some (Fin ((log10 se - log10 (0.9 * sut)) / 3))).
Proof.
  intros Hse Hsut; unfold calc_B.
  replace (_ && _) with true by (symmetry; now apply B_guard_Fin).
  simpl.
  replace (Rlt_bool 0 se) with true by (symmetry; now apply Rlt_bool_true).
  replace (Rlt_bool 0 (0.9 * sut)) with true
    by (symmetry; now apply Rlt_bool_true).
  simpl.
  replace (Req_bool 3 0) with false by (symmetry; apply Req_bool_false; lra).
  reflexivity.
Qed.

Lemma calc_B_None (se sut : R) :
  ~ (0 < se /\ 0 < 0.9 * sut) -> calc_B (Fin se) (Fin sut) = Ok None.
Proof.
  intros H; unfold calc_B.
  destruct (_ && _) eqn:E; [| reflexivity].
  now apply B_guard_Fin in E.
Qed.

Lemma calc_A_Some (Se : pyfloat) (b : R) :
  calc_A Se (Some (Fin b)) = Ok (Some (safe_div Se (Fin (Rpower 10 (6 * b))))).
Proof. unfold calc_A; simpl fmul; rewrite pow_10; reflexivity. Qed.

Lemma calc_A_total (Se : pyfloat) (B : option pyfloat) :
  exists A, calc_A Se B = Ok A.
Proof.
  destruct B as [[| b] |]; [ | | simpl; eauto].
  - unfold calc_A; cbn [fmul]; rewrite pow_10_NaN; simpl; eauto.
  - rewrite calc_A_Some; eauto.
Qed.

Lemma calc_B_total (se sut : R) : exists B, calc_B (Fin se) (Fin sut) = Ok B.
Proof.
  destruct (Rlt_dec 0 se) as [H1 | H1];
    [destruct (Rlt_dec 0 (0.9 * sut)) as [H2 | H2] |].
  - rewrite calc_B_Fin by assumption; eauto.
  - rewrite calc_B_None by tauto; eauto.
  - rewrite calc_B_None by tauto; eauto.
Qed.

Lemma in_None_0_Some (f : pyfloat) :
  negb (in_None_0 (Some f)) = float_ne f (Fin 0).
Proof. unfold in_None_0, float_eq; apply negb_involutive. Qed.

Lemma calc_static_fos_total (Sp : option pyfloat) (Sa : pyfloat) :
  exists r, calc_static_fos Sp Sa = Ok r.
Proof.
  unfold calc_static_fos; destruct Sp as [sp |]; [| eauto].
  rewrite in_None_0_Some.
  destruct (float_ne Sa (Fin 0)) eqn:E; [| eauto].
  destruct (truediv_total sp Sa E) as [q Hq]; rewrite Hq; simpl; eauto.
Qed.

Lemma calc_fatigue_fos_total (Sq : option pyfloat) (Sa : pyfloat) :
  exists r, calc_fatigue_fos Sq Sa = Ok r.
Proof.
  unfold calc_fatigue_fos; destruct Sq as [sq |]; [| eauto].
  rewrite in_None_0_Some.
  destruct (float_ne Sa (Fin 0)) eqn:E; [| eauto].
  destruct (truediv_total sq Sa E) as [q Hq]; rewrite Hq; simpl; eauto.
Qed.

(** The endurance limit is always a real number. *)
Lemma calc_Se_Fin (ka kb kc kd ke kh kl km Sut : R) :
  calc_Se (Fin ka) (Fin kb) (Fin kc) (Fin kd) (Fin ke) (Fin kh)
          (Fin kl) (Fin km) (Fin Sut)
  = Fin (0.5 * ka * kb * kc * kd * ke * kh * kl * km * Sut).
Proof. reflexivity. Qed.

(** ** The whole calculation *)

Lemma calculate_inv (i : inputs) (r : results) :
  calculate i = Ok r ->
  exists Sc Sp Sq B A static_fos fatigue_fos,
    calc_Sc (Sh_of i) (Sl_of i) = Ok Sc /\
    calc_Sp (Fin (Se_of i)) (safe_div Sc (Fin 2)) (safe_div Sc (Fin 2))
            (Fin (in_Sut i)) = Ok Sp /\
    calc_Sq (safe_div Sc (Fin 2)) (safe_div Sc (Fin 2)) (Fin (in_Sut i))
      = Ok Sq /\
    calc_B (Fin (Se_of i)) (Fin (in_Sut i)) = Ok B /\
    calc_A (Fin (Se_of i)) B = Ok A /\
    calc_static_fos Sp (safe_div Sc (Fin 2)) = Ok static_fos /\
    calc_fatigue_fos Sq (safe_div Sc (Fin 2)) = Ok fatigue_fos /\
    r = {| out_t := VFloat (Fin (t_of i));
           out_Sh := VFloat (Sh_of i);
           out_Sl := VFloat (Sl_of i);
           out_Sc := VFloat Sc;
           out_Sa := VFloat (safe_div Sc (Fin 2));
           out_Sm := VFloat (safe_div Sc (Fin 2));
           out_Se := VFloat (Fin (Se_of i));
           out_Sp := of_option Sp;
           out_Sq := of_option Sq;
           out_B := of_option B;
           out_A := of_option A;
           out_static_fos := of_option static_fos;
           out_fatigue_fos := of_option fatigue_fos;
           out_life_cycles := calc_life_cycles A B Sq |}.
Proof.
  unfold calculate; rewrite calc_t_Fin, calc_Sl_Fin, calc_Se_Fin.
  cbn [bind]; fold (t_of i) (Sh_of i) (Sl_of i) (Se_of i).
  intros H.
  inv_bind H; rename v into Sc.
  inv_bind H; rename v into Sp.
  inv_bind H; rename v into Sq.
  inv_bind H; rename v into B.
  inv_bind H; rename v into A.
  inv_bind H; rename v into static_fos.
  inv_bind H; rename v into fatigue_fos.
  injection H as <-.
  exists Sc, Sp, Sq, B, A, static_fos, fatigue_fos; repeat split; assumption.
Qed.

(** The calculation returns a record for every input: no statement of
    lines 46-131 raises. *)
Lemma calculate_never_raises (i : inputs) : exists r, calculate i = Ok r.
Proof.
  unfold calculate; rewrite calc_t_Fin, calc_Sl_Fin, calc_Se_Fin.
  cbn [bind].
  destruct (calc_Sc_total (calc_Sh (Fin (in_p i)) (Fin (in_D i))
                                   (Fin ((in_Do i - in_D i) / 2)))
              (safe_div (Fin (in_p i * (in_D i * in_D i)))
                 (Fin (100 * (in_Do i * in_Do i - in_D i * in_D i)))))
    as [Sc ->]; cbn [bind].
  match goal with |- context [calc_Sp ?a ?b ?c ?d] =>
    destruct (calc_Sp_total a b c d) as [Sp ->] end; cbn [bind].
  match goal with |- context [calc_Sq ?a ?b ?c] =>
    destruct (calc_Sq_total a b c) as [Sq ->] end; cbn [bind].
  match goal with |- context [calc_B (Fin ?a) (Fin ?b)] =>
    destruct (calc_B_total a b) as [B ->] end; cbn [bind].
  destruct (calc_A_total (Fin (0.5 * in_ka i * in_kb i * in_kc i * in_kd i
              * in_ke i * in_kh i * in_kl i * in_km i * in_Sut i)) B)
    as [A ->]; cbn [bind].
  match goal with |- context [calc_static_fos ?a ?b] =>
    destruct (calc_static_fos_total a b) as [sf ->] end; cbn [bind].
  match goal with |- context [calc_fatigue_fos ?a ?b] =>
    destruct (calc_fatigue_fos_total a b) as [ff ->] end; cbn [bind].
  eauto.
Qed.

(** ** The stresses in closed form *)

Lemma Sh_of_Fin (i : inputs) : in_Do i <> in_D i -> Sh_of i = Fin (hoop i).
Proof.
  intros H; unfold Sh_of, calc_Sh, hoop; cbn [fmul fadd].
  apply safe_div_Fin; unfold t_of; lra.
Qed.

Lemma Sh_of_NaN (i : inputs) : in_Do i = in_D i -> Sh_of i = NaN.
Proof.
  intros H; unfold Sh_of, calc_Sh, t_of; cbn [fmul fadd].
  replace (100 * ((in_Do i - in_D i) / 2)) with 0 by (rewrite H; lra).
  apply safe_div_zero.
Qed.

Lemma Sl_of_Fin (i : inputs) :
  in_Do i * in_Do i <> in_D i * in_D i -> Sl_of i = Fin (longitudinal i).
Proof.
  intros H; unfold Sl_of, longitudinal; apply safe_div_Fin; lra.
Qed.

Lemma Sl_of_NaN (i : inputs) :
  in_Do i * in_Do i = in_D i * in_D i -> Sl_of i = NaN.
Proof.
  intros H; unfold Sl_of.
  replace (100 * (in_Do i * in_Do i - in_D i * in_D i)) with 0
    by (rewrite H; lra).
  apply safe_div_zero.
Qed.

(** With a nonzero wall thickness and [Do <> -D], the six stress fields
    are the closed forms. *)
Lemma calculate_stresses (i : inputs) (r : results) :
  calculate i = Ok r ->
  in_Do i <> in_D i -> in_Do i <> - in_D i ->
  out_Sh r = VFloat (Fin (hoop i)) /\
  out_Sl r = VFloat (Fin (longitudinal i)) /\
  out_Sc r = VFloat (Fin (combined i)) /\
  out_Sa r = VFloat (Fin (combined i / 2)) /\
  out_Sm r = VFloat (Fin (combined i / 2)).
Proof.
  intros Hr H1 H2.
  destruct (calculate_inv i r Hr)
    as (Sc & Sp & Sq & B & A & sf & ff & HSc & _ & _ & _ & _ & _ & _ & ->).
  assert (Hsq : in_Do i * in_Do i <> in_D i * in_D i) by nra.
  rewrite Sh_of_Fin, Sl_of_Fin, calc_Sc_Fin in HSc by assumption.
  injection HSc as <-; fold (combined i); cbn.
  rewrite safe_div_Fin by lra.
  repeat split; try reflexivity.
  - now rewrite Sh_of_Fin.
  - now rewrite Sl_of_Fin.
Qed.

Lemma calculate_t_Se (i : inputs) (r : results) :
  calculate i = Ok r ->
  out_t r = VFloat (Fin (t_of i)) /\ out_Se r = VFloat (Fin (Se_of i)).
Proof.
  intros Hr.
  destruct (calculate_inv i r Hr)
    as (Sc & Sp & Sq & B & A & sf & ff & _ & _ & _ & _ & _ & _ & _ & ->).
  split; reflexivity.
Qed.

Lemma sqrt_between (x lo hi : R) :
  0 <= lo -> lo * lo <= x -> x <= hi * hi -> 0 <= hi ->
  lo <= sqrt x <= hi.
Proof.
  intros Hlo H1 H2 Hhi; split.
  - rewrite <- (sqrt_square lo) by assumption.
    apply sqrt_le_1; nra.
  - rewrite <- (sqrt_square hi) by assumption.
    apply sqrt_le_1; nra.
Qed.

(** ** The reference scenario *)

Lemma within_tol_intro (r v : R) :
  0 <= v -> v - 1e-6 * v <= r <= v + 1e-6 * v ->
  within_tol (VFloat (Fin r)) v.
Proof.
  intros Hv H; exists r; split; [reflexivity |].
  rewrite (Rabs_pos_eq v) by assumption.
  apply Rabs_le; lra.
Qed.

Lemma hoop_nominal : hoop nominal = 16.81875.
Proof. unfold hoop, t_of; cbn; lra. Qed.

Lemma longitudinal_nominal : longitudinal nominal = 575 / 96.
Proof. unfold longitudinal; cbn; lra. Qed.

Lemma combined_nominal : 14.765099 <= combined nominal <= 14.7651.
Proof.
  unfold combined; rewrite hoop_nominal, longitudinal_nominal.
  apply sqrt_between; lra.
Qed.

Lemma Se_of_nominal : Se_of nominal = 15.56775.
Proof. unfold Se_of; cbn; lra. Qed.

Lemma t_of_nominal : t_of nominal = 6.
Proof. unfold t_of; cbn; lra. Qed.

(** C2, as stated, fails: at the default inputs the calculation returns a
    hoop stress of 16.81875, which is not within 1e-6 of the stated 15.87
    (nor is [Se = 15.56775] within 1e-6 of the stated 15.57). *)
Lemma reference_scenario_as_stated_fails :
  exists r, calculate nominal = Ok r /\
    out_Sh r = VFloat (Fin 16.81875) /\ ~ within_tol (out_Sh r) 15.87 /\
    out_Se r = VFloat (Fin 15.56775) /\ ~ within_tol (out_Se r) 15.57.
Proof.
  destruct (calculate_never_raises nominal) as [r Hr].
  exists r; split; [assumption |].
  destruct (calculate_stresses nominal r Hr) as (HSh & _);
    [cbn; lra | cbn; lra |].
  destruct (calculate_t_Se nominal r Hr) as (_ & HSe).
  rewrite HSh, HSe, hoop_nominal, Se_of_nominal.
  repeat split.
  - intros (sh & Hsh & Htol); injection Hsh as <-.
    rewrite (Rabs_pos_eq 15.87), Rabs_pos_eq in Htol by lra; lra.
  - intros (se & Hse & Htol); injection Hse as <-.
    rewrite (Rabs_pos_eq 15.57), Rabs_left in Htol by lra; lra.
Qed.

(** C2 (amended): at the default inputs the calculation returns [t = 6.0],
    [Sh = 16.81875], [Sl] within 1e-6 of 5.989583, [Sc] within 1e-6 of
    14.765099, [Sa = Sm] within 1e-6 of 7.38255, and [Se = 15.56775]. *)
Theorem reference_scenario :
  exists r, calculate nominal = Ok r /\
    out_t r = VFloat (Fin 6) /\
    within_tol (out_Sh r) 16.81875 /\
    within_tol (out_Sl r) 5.989583 /\
    within_tol (out_Sc r) 14.765099 /\
    within_tol (out_Sa r) 7.38255 /\
    out_Sm r = out_Sa r /\
    within_tol (out_Se r) 15.56775.
Proof.
  destruct (calculate_never_raises nominal) as [r Hr].
  exists r; split; [assumption |].
  destruct (calculate_stresses nominal r Hr)
    as (HSh & HSl & HSc & HSa & HSm); [cbn; lra | cbn; lra |].
  destruct (calculate_t_Se nominal r Hr) as (Ht & HSe).
  pose proof combined_nominal as Hc.
  rewrite Ht, HSh, HSl, HSc, HSa, HSm, HSe.
  rewrite t_of_nominal, hoop_nominal, longitudinal_nominal, Se_of_nominal.
  repeat split; try (apply within_tol_intro; lra).
Qed.

(** ** A negative base under [**] *)

Lemma between_not_integral (w : R) (z : Z) :
  IZR z < w < IZR (z + 1) -> forall k : Z, w <> IZR k.
Proof.
  intros [Hlo Hhi] k ->.
  apply lt_IZR in Hlo, Hhi; lia.
Qed.

Lemma float_pow_complex (x e : R) :
  x < 0 -> (forall k : Z, e <> IZR k) ->
  float_pow (Fin x) (Fin e) =
  Ok (PComplex (Rpower (- x) e * cos (PI * e))
               (Rpower (- x) e * sin (PI * e))).
Proof.
  intros Hx He; unfold float_pow.
  replace (Req_bool e 0) with false
    by (symmetry; apply Req_bool_false, (He 0%Z)).
  replace (Req_bool x 0) with false by (symmetry; apply Req_bool_false; lra).
  replace (Rlt_bool x 0) with true by (symmetry; now apply Rlt_bool_true).
  now rewrite (is_integral_false e He).
Qed.

Lemma calc_life_cycles_complex (a b sq : R) :
  a <> 0 -> b <> 0 -> sq / a < 0 -> (forall k : Z, 1 / b <> IZR k) ->
  calc_life_cycles (Some (Fin a)) (Some (Fin b)) (Some (Fin sq)) =
  VComplex (Rpower (- (sq / a)) (1 / b) * cos (PI * (1 / b)))
           (Rpower (- (sq / a)) (1 / b) * sin (PI * (1 / b))).
Proof.
  intros Ha Hb Hneg Hfrac; unfold calc_life_cycles.
  rewrite !in_None_0_Some.
  rewrite (proj2 (float_ne_Fin a 0) Ha), (proj2 (float_ne_Fin b 0) Hb).
  cbn [andb in_None negb].
  rewrite !truediv_Fin by assumption; cbn [bind].
  rewrite float_pow_complex by assumption; reflexivity.
Qed.

Lemma of_option_Float (o : option pyfloat) (x : pyfloat) :
  of_option o = VFloat x -> o = Some x.
Proof. destruct o; simpl; congruence. Qed.

Lemma of_option_None (o : option pyfloat) : of_option o = VNone -> o = None.
Proof. destruct o; simpl; congruence. Qed.


(** ** [Sq], [B] and [A] in closed form *)

Lemma calc_Sq_Fin (sm sa sut : R) :
  sut <> 0 -> sa <> sut ->
  calc_Sq (Fin sm) (Fin sa) (Fin sut) = Ok (Some (Fin (sm / (1 - sa / sut)))).
Proof.
  intros Hsut Hne; unfold calc_Sq.
  rewrite (proj2 (float_ne_Fin sut 0) Hsut).
  rewrite truediv_Fin by assumption; cbn [bind fsub].
  rewrite safe_div_Fin; [reflexivity |].
  intros H; apply Hne.
  apply Rminus_diag_uniq_sym in H.
  apply (Rmult_eq_compat_r sut) in H.
  unfold Rdiv in H; rewrite Rmult_assoc, Rinv_l in H by assumption; lra.
Qed.

Lemma calc_Sq_boundary (Sm : pyfloat) (sut : R) :
  sut <> 0 -> calc_Sq Sm (Fin sut) (Fin sut) = Ok (Some NaN).
Proof.
  intros Hsut; unfold calc_Sq.
  rewrite (proj2 (float_ne_Fin sut 0) Hsut).
  rewrite truediv_Fin by assumption; cbn [bind fsub].
  replace (1 - sut / sut) with 0 by (field; assumption).
  now rewrite safe_div_zero.
Qed.

Lemma calc_Sq_zero_Sut (Sm Sa : pyfloat) : calc_Sq Sm Sa (Fin 0) = Ok None.
Proof.
  unfold calc_Sq.
  now rewrite (proj2 (float_ne_Fin_false 0 0) eq_refl).
Qed.

Lemma calc_A_Fin (se b : R) :
  calc_A (Fin se) (Some (Fin b)) = Ok (Some (Fin (se / Rpower 10 (6 * b)))).
Proof.
  rewrite calc_A_Some, safe_div_Fin; [reflexivity |].
  pose proof (Rpower_pos 10 (6 * b)); lra.
Qed.

Lemma ln_10_pos : 0 < ln 10.
Proof. rewrite <- ln_1; apply ln_increasing; lra. Qed.

(** Rational bounds on [log10 x], from comparisons of powers:
    [- n / m < log10 x] when [1 < x ^ m * 10 ^ n], and the converse. *)
Lemma log10_gt_frac (x : R) (n m : nat) :
  0 < x -> 1 < x ^ m * 10 ^ n -> - INR n < INR m * log10 x.
Proof.
  intros Hx H.
  assert (Hm : 0 < x ^ m) by now apply pow_lt.
  assert (Hn : 0 < 10 ^ n) by (apply pow_lt; lra).
  apply ln_increasing in H; [| lra].
  rewrite ln_1, ln_mult, !ln_pow in H by (assumption || lra).
  pose proof ln_10_pos as HL.
  unfold log10.
  replace (INR m * (ln x / ln 10)) with ((INR m * ln x) / ln 10)
    by (field; lra).
  apply (Rmult_lt_reg_r (ln 10)); [assumption |].
  unfold Rdiv at 1; rewrite Rmult_assoc, Rinv_l by lra; lra.
Qed.

Lemma log10_lt_frac (x : R) (n m : nat) :
  0 < x -> x ^ m * 10 ^ n < 1 -> INR m * log10 x < - INR n.
Proof.
  intros Hx H.
  assert (Hm : 0 < x ^ m) by now apply pow_lt.
  assert (Hn : 0 < 10 ^ n) by (apply pow_lt; lra).
  apply ln_increasing in H; [| nra].
  rewrite ln_1, ln_mult, !ln_pow in H by (assumption || lra).
  pose proof ln_10_pos as HL.
  unfold log10.
  replace (INR m * (ln x / ln 10)) with ((INR m * ln x) / ln 10)
    by (field; lra).
  apply (Rmult_lt_reg_r (ln 10)); [assumption |].
  unfold Rdiv at 1; rewrite Rmult_assoc, Rinv_l by lra; lra.
Qed.

Lemma log10_div (x y : R) :
  0 < x -> 0 < y -> log10 x - log10 y = log10 (x / y).
Proof.
  intros Hx Hy; unfold log10; change (x / y) with (x * / y).
  rewrite ln_mult, ln_Rinv by (assumption || now apply Rinv_0_lt_compat).
  pose proof ln_10_pos; field; lra.
Qed.

Lemma inv_between_neg (b lo hi : R) :
  lo < 0 -> hi < 0 -> 1 / hi < b < 1 / lo -> lo < 1 / b < hi.
Proof.
  intros Hlo Hhi [H1 H2].
  assert (Hb : b < 0).
  { apply Rlt_trans with (1 / lo); [assumption |].
    unfold Rdiv; rewrite Rmult_1_l; now apply Rinv_neg. }
  assert (E : 1 / b * b = 1) by (field; lra).
  assert (Elo : 1 / lo * lo = 1) by (field; lra).
  assert (Ehi : 1 / hi * hi = 1) by (field; lra).
  split.
  - apply Rnot_le_lt; intros Hc.
    assert (1 / b * b >= lo * b) by nra.
    assert (lo * b > lo * (1 / lo)) by nra.
    nra.
  - apply Rnot_le_lt; intros Hc.
    assert (1 / b * b <= hi * b) by nra.
    assert (hi * b < hi * (1 / hi)) by nra.
    nra.
Qed.

(** ** A run at high pressure *)

Lemma combined_high_pressure : 147 <= combined high_pressure <= 148.
Proof.
  unfold combined.
  replace (hoop high_pressure) with 168.1875
    by (unfold hoop, t_of; cbn; lra).
  replace (longitudinal high_pressure) with (2875 / 48)
    by (unfold longitudinal; cbn; lra).
  apply sqrt_between; lra.
Qed.

Lemma slope_high_pressure :
  -6 < 1 / ((log10 (Se_of high_pressure) - log10 (0.9 * 60)) / 3) < -5.
Proof.
  assert (ESe : Se_of high_pressure = 15.56775) by (unfold Se_of; cbn; lra).
  rewrite ESe, log10_div by lra.
  set (x := 15.56775 / (0.9 * 60)).
  assert (Hx : 0 < x) by (unfold x; lra).
  pose proof (log10_gt_frac x 3 5 Hx) as Hlo.
  pose proof (log10_lt_frac x 1 2 Hx) as Hhi.
  simpl INR in Hlo, Hhi.
  assert (Hlo' : - (1 + 1 + 1) < (1 + 1 + 1 + 1 + 1) * log10 x)
    by (apply Hlo; unfold x; lra).
  assert (Hhi' : (1 + 1) * log10 x < - 1)
    by (apply Hhi; unfold x; lra).
  apply inv_between_neg; lra.
Qed.

(** At ten times the default pressure the three guards of line 127 pass,
    the base [Sq / A] is negative and the exponent [1 / B] lies strictly
    between -6 and -5. *)
Lemma high_pressure_run :
  exists r a b sq,
    calculate high_pressure = Ok r /\
    out_A r = VFloat (Fin a) /\ out_B r = VFloat (Fin b) /\
    out_Sq r = VFloat (Fin sq) /\
    a <> 0 /\ b <> 0 /\ sq / a < 0 /\ -6 < 1 / b < -5.
Proof.
  destruct (calculate_never_raises high_pressure) as [r Hr].
  destruct (calculate_inv _ r Hr)
    as (Sc & Sp & Sq & B & A & sf & ff
        & HSc & _ & HSq & HB & HA & _ & _ & ->).
  rewrite Sh_of_Fin, Sl_of_Fin, calc_Sc_Fin in HSc by (cbn; lra).
  fold (combined high_pressure) in HSc; injection HSc as <-.
  pose proof combined_high_pressure as Hc.
  rewrite safe_div_Fin in HSq by lra.
  cbn [in_Sut high_pressure] in HSq, HB.
  rewrite calc_Sq_Fin in HSq by lra; injection HSq as <-.
  assert (HSe : 0 < Se_of high_pressure) by (unfold Se_of; cbn; lra).
  rewrite calc_B_Fin in HB by lra; injection HB as <-.
  rewrite calc_A_Fin in HA; injection HA as <-.
  pose proof slope_high_pressure as Hslope.
  set (b := (log10 (Se_of high_pressure) - log10 (0.9 * 60)) / 3) in *.
  pose proof (Rpower_pos 10 (6 * b)) as Hpw.
  assert (Ha : 0 < Se_of high_pressure / Rpower 10 (6 * b))
    by now apply Rdiv_lt_0_compat.
  assert (Hsq : combined high_pressure / 2
                / (1 - combined high_pressure / 2 / 60) < 0).
  { apply Ropp_lt_cancel; rewrite Ropp_0, <- Rdiv_opp_r.
    apply Rdiv_lt_0_compat; lra. }
  eexists; exists (Se_of high_pressure / Rpower 10 (6 * b)), b,
    (combined high_pressure / 2 / (1 - combined high_pressure / 2 / 60)).
  split; [exact Hr |]; cbn [out_A out_B out_Sq of_option].
  repeat split; try reflexivity; try lra.
  - intros Hb0; rewrite Hb0 in Hslope; unfold Rdiv in Hslope.
    rewrite Rinv_0 in Hslope; lra.
  - apply Ropp_lt_cancel; rewrite Ropp_0, <- Rdiv_opp_l.
    apply Rdiv_lt_0_compat; lra.
Qed.

Lemma calculate_life_cycles (i : inputs) (r : results) :
  calculate i = Ok r ->
  exists A B Sq,
    out_A r = of_option A /\ out_B r = of_option B /\
    out_Sq r = of_option Sq /\
    out_life_cycles r = calc_life_cycles A B Sq.
Proof.
  intros Hr.
  destruct (calculate_inv i r Hr)
    as (Sc & Sp & Sq & B & A & sf & ff & _ & _ & _ & _ & _ & _ & _ & ->).
  exists A, B, Sq; repeat split.
Qed.



(** C1: the calculation returns a record for every input, but not every
    undefined field of it is marked: at ten times the default pressure
    [life_cycles], a negative number to a fractional power, is a complex
    number, neither a real number nor the sentinel. *)
Theorem high_pressure_life_cycles_unmarked :
  exists r, calculate high_pressure = Ok r /\
    (exists re im, out_life_cycles r = VComplex re im) /\
    not_available (out_life_cycles r) = false /\
    ~ defined (out_life_cycles r).
Proof.
  destruct high_pressure_run
    as (r & a & b & sq & Hr & HA & HB & HSq & Ha & Hb & Hneg & Hfrac).
  destruct (calculate_life_cycles _ r Hr)
    as (A & B & Sq & EA & EB & ESq & EL).
  rewrite EA in HA; rewrite EB in HB; rewrite ESq in HSq.
  apply of_option_Float in HA, HB, HSq; subst A B Sq.
  rewrite calc_life_cycles_complex in EL
    by (assumption || exact (between_not_integral (1 / b) (-6) Hfrac)).
  exists r; rewrite EL; repeat split; eauto.
  intros (x & Hx); discriminate.
Qed.

(** ** Propagation of the sentinel *)

Lemma not_available_of_option (o : option pyfloat) :
  not_available (of_option o) = true <-> o = None \/ o = Some NaN.
Proof.
  destruct o as [[| x] |]; simpl; split; intros H; auto;
    try discriminate; destruct H; discriminate.
Qed.

Lemma calc_static_fos_na (Sp ff : option pyfloat) (Sa : pyfloat) :
  calc_static_fos Sp Sa = Ok ff ->
  not_available (of_option Sp) = true ->
  not_available (of_option ff) = true.
Proof.
  intros H Hna; apply not_available_of_option in Hna.
  destruct Hna as [-> | ->]; [simpl in H; now injection H as <- |].
  revert H; unfold calc_static_fos; rewrite in_None_0_Some.
  destruct (float_ne Sa (Fin 0)) eqn:E.
  - rewrite truediv_NaN_l by assumption; simpl; now intros [= <-].
  - now intros [= <-].
Qed.

Lemma calc_fatigue_fos_na (Sq ff : option pyfloat) (Sa : pyfloat) :
  calc_fatigue_fos Sq Sa = Ok ff ->
  not_available (of_option Sq) = true ->
  not_available (of_option ff) = true.
Proof.
  intros H Hna; apply not_available_of_option in Hna.
  destruct Hna as [-> | ->]; [simpl in H; now injection H as <- |].
  revert H; unfold calc_fatigue_fos; rewrite in_None_0_Some.
  destruct (float_ne Sa (Fin 0)) eqn:E.
  - rewrite truediv_NaN_l by assumption; simpl; now intros [= <-].
  - now intros [= <-].
Qed.

Lemma float_pow_NaN_base (e : pyfloat) :
  float_ne e (Fin 0) = true -> float_pow NaN e = Ok (PFloat NaN).
Proof.
  destruct e as [| w]; simpl; [reflexivity |].
  now destruct (Req_bool w 0).
Qed.

Lemma truediv_1_ne_0 (b e : pyfloat) :
  truediv (Fin 1) b = Ok e -> float_ne e (Fin 0) = true.
Proof.
  destruct b as [| y]; simpl; [now intros [= <-] |].
  destruct (Req_bool y 0) eqn:E; [discriminate |].
  intros [= <-]; apply float_ne_Fin.
  apply Req_bool_false in E.
  unfold Rdiv; rewrite Rmult_1_l; now apply Rinv_neq_0_compat.
Qed.

Lemma calc_life_cycles_na (A B Sq : option pyfloat) :
  not_available (of_option Sq) = true ->
  not_available (calc_life_cycles A B Sq) = true.
Proof.
  intros Hna; apply not_available_of_option in Hna.
  unfold calc_life_cycles.
  destruct Hna as [-> | ->]; [now rewrite andb_false_r |].
  destruct A as [a |]; [| reflexivity].
  destruct B as [b |]; [| now rewrite andb_false_r].
  rewrite !in_None_0_Some; cbn [in_None negb]; rewrite andb_true_r.
  destruct (float_ne a (Fin 0)) eqn:Ea; [| reflexivity].
  destruct (float_ne b (Fin 0)) eqn:Eb; [| reflexivity].
  cbn [andb]; rewrite truediv_NaN_l by assumption; cbn [bind].
  destruct (truediv (Fin 1) b) as [e | x] eqn:Ee; [| reflexivity].
  cbn [bind]; rewrite float_pow_NaN_base by (eapply truediv_1_ne_0; eauto).
  reflexivity.
Qed.

Lemma calc_life_cycles_None_B (A Sq : option pyfloat) :
  calc_life_cycles A None Sq = VNone.
Proof.
  unfold calc_life_cycles; cbn [in_None_0 negb].
  now rewrite andb_false_r.
Qed.

Lemma calc_Sp_NaN (Se Sut : pyfloat) (Sp : option pyfloat) :
  calc_Sp Se NaN NaN Sut = Ok Sp -> not_available (of_option Sp) = true.
Proof.
  unfold calc_Sp.
  destruct (safe_div_None (Fin 1) Se) as [dp |]; [| now intros [= <-]].
  cbn [float_ne andb].
  destruct (float_ne Sut (Fin 0)); [| now intros [= <-]].
  cbn [fmul truediv bind].
  destruct dp; cbn [fadd]; rewrite safe_div_NaN_r; now intros [= <-].
Qed.

Lemma calc_Sq_NaN (Sut : pyfloat) (Sq : option pyfloat) :
  calc_Sq NaN NaN Sut = Ok Sq -> not_available (of_option Sq) = true.
Proof.
  unfold calc_Sq.
  destruct (float_ne Sut (Fin 0)) eqn:E; [| now intros [= <-]].
  rewrite truediv_NaN_l by assumption; cbn [bind fsub].
  rewrite safe_div_NaN_l; now intros [= <-].
Qed.

(** ** The Basquin slope *)

(** What the calculation leaves in [B], [A] and [life_cycles], by the
    guard of line 107. *)
Lemma calculate_basquin (i : inputs) (r : results) :
  calculate i = Ok r ->
  (0 < Se_of i /\ 0 < 0.9 * in_Sut i ->
     out_B r =
       VFloat (Fin ((log10 (Se_of i) - log10 (0.9 * in_Sut i)) / 3)) /\
     out_A r =
       VFloat (Fin (Se_of i / Rpower 10
         (6 * ((log10 (Se_of i) - log10 (0.9 * in_Sut i)) / 3))))) /\
  (~ (0 < Se_of i /\ 0 < 0.9 * in_Sut i) ->
     out_B r = VNone /\ out_A r = VNone /\ out_life_cycles r = VNone) /\
  (out_B r = VNone -> out_A r = VNone /\ out_life_cycles r = VNone).
Proof.
  intros Hr.
  destruct (calculate_inv i r Hr)
    as (Sc & Sp & Sq & B & A & sf & ff & _ & _ & _ & HB & HA & _ & _ & ->).
  cbn [out_B out_A out_life_cycles].
  assert (Hnone : of_option B = VNone ->
            of_option A = VNone /\ calc_life_cycles A B Sq = VNone).
  { intros E; apply of_option_None in E; subst B.
    simpl in HA; injection HA as <-.
    split; [reflexivity | apply calc_life_cycles_None_B]. }
  split; [| split].
  - intros [H1 H2]; rewrite calc_B_Fin in HB by assumption.
    injection HB as <-; rewrite calc_A_Fin in HA; injection HA as <-.
    split; reflexivity.
  - intros Hg; rewrite calc_B_None in HB by assumption.
    injection HB as <-; split; [reflexivity | now apply Hnone].
  - exact Hnone.
Qed.



(** ** The amplitude at the tensile strength *)

(** C6: when the stress amplitude [Sa] equals [Sut], the equivalent stress
    [Sq] is unavailable ([None] when both are 0, NaN otherwise), and so are
    [fatigue_fos] and [life_cycles]. *)
Theorem amplitude_at_strength (i : inputs) (r : results) :
  calculate i = Ok r ->
  out_Sa r = VFloat (Fin (in_Sut i)) ->
  not_available (out_Sq r) = true /\
  not_available (out_fatigue_fos r) = true /\
  not_available (out_life_cycles r) = true.
Proof.
  intros Hr HSa.
  destruct (calculate_inv i r Hr)
    as (Sc & Sp & Sq & B & A & sf & ff & _ & _ & HSq & _ & _ & _ & Hff & ->).
  cbn [out_Sa out_Sq out_fatigue_fos out_life_cycles] in *.
  injection HSa as HSa; rewrite HSa in HSq, Hff.
  assert (Hna : not_available (of_option Sq) = true).
  { destruct (Req_dec_T (in_Sut i) 0) as [E | E].
    - rewrite E, calc_Sq_zero_Sut in HSq; now injection HSq as <-.
    - rewrite calc_Sq_boundary in HSq by assumption; now injection HSq as <-. }
  repeat split.
  - assumption.
  - eapply calc_fatigue_fos_na; eauto.
  - now apply calc_life_cycles_na.
Qed.

Lemma combined_at_strength : combined at_strength = 2.
Proof.
  unfold combined.
  replace (hoop at_strength) with 2 by (unfold hoop, t_of; cbn; lra).
  replace (longitudinal at_strength) with 0
    by (unfold longitudinal; cbn; lra).
  replace (2 * 2 + 0 * 0 - 2 * 0) with (2 * 2) by ring.
  apply sqrt_square; lra.
Qed.

Lemma amplitude_at_strength_witness :
  exists r, calculate at_strength = Ok r /\
    not_available (out_Sq r) = true /\
    not_available (out_fatigue_fos r) = true /\
    not_available (out_life_cycles r) = true.
Proof.
  destruct (calculate_never_raises at_strength) as [r Hr].
  exists r; split; [exact Hr |].
  apply (amplitude_at_strength at_strength r Hr).
  destruct (calculate_stresses at_strength r Hr) as (_ & _ & _ & HSa & _);
    [cbn; lra | cbn; lra |].
  rewrite HSa, combined_at_strength; cbn; do 2 f_equal; lra.
Defined.

(** ** A zero wall thickness *)

(** C3, as stated, fails: with [Do = D] the longitudinal stress is
    unavailable too, since its denominator [Do**2 - D**2] is 0; and [B]
    and [A] are [None] when the tensile strength is 0. *)
Lemma zero_wall_as_stated_fails :
  (exists r, calculate zero_wall = Ok r /\
     in_Do zero_wall = in_D zero_wall /\
     not_available (out_Sl r) = true /\ ~ defined (out_Sl r)) /\
  (exists r, calculate zero_wall_zero_strength = Ok r /\
     in_Do zero_wall_zero_strength = in_D zero_wall_zero_strength /\
     out_B r = VNone /\ out_A r = VNone).
Proof.
  split.
  - destruct (calculate_never_raises zero_wall) as [r Hr].
    exists r; split; [assumption |].
    destruct (calculate_inv _ r Hr)
      as (Sc & Sp & Sq & B & A & sf & ff & _ & _ & _ & _ & _ & _ & _ & ->).
    cbn [out_Sl]; rewrite Sl_of_NaN by reflexivity.
    repeat split; intros (x & Hx); discriminate.
  - destruct (calculate_never_raises zero_wall_zero_strength) as [r Hr].
    exists r; split; [assumption |].
    destruct (calculate_basquin _ r Hr) as (_ & HB & _).
    destruct HB as (HB & HA & _); [cbn; lra |].
    repeat split; assumption.
Qed.

(** C3 (amended): in a record that the calculation has returned for
    inputs with [Do = D], the wall thickness is 0 and [Sh], [Sl], [Sc],
    [Sa], [Sm], [Sp], [Sq], [static_fos], [fatigue_fos] and [life_cycles]
    are all unavailable; [Se] holds a real number; when that [Se] and
    [0.9 * Sut] are positive, [B] holds a real number and [A] is computed
    (it is not [None]), and otherwise both are [None]. *)
Theorem zero_wall_cascade (i : inputs) (r : results) :
  in_Do i = in_D i ->
  calculate i = Ok r ->
  out_t r = VFloat (Fin 0) /\
  not_available (out_Sh r) = true /\
  not_available (out_Sl r) = true /\
  not_available (out_Sc r) = true /\
  not_available (out_Sa r) = true /\
  not_available (out_Sm r) = true /\
  not_available (out_Sp r) = true /\
  not_available (out_Sq r) = true /\
  not_available (out_static_fos r) = true /\
  not_available (out_fatigue_fos r) = true /\
  not_available (out_life_cycles r) = true /\
  exists se,
    out_Se r = VFloat (Fin se) /\
    (0 < se /\ 0 < 0.9 * in_Sut i ->
       defined (out_B r) /\ out_A r <> VNone) /\
    (~ (0 < se /\ 0 < 0.9 * in_Sut i) ->
       out_B r = VNone /\ out_A r = VNone).
Proof.
  intros HD Hr.
  destruct (calculate_basquin i r Hr) as (Hyes & Hno & _).
  destruct (calculate_inv i r Hr)
    as (Sc & Sp & Sq & B & A & sf & ff
        & HSc & HSp & HSq & _ & _ & Hsf & Hff & Er).
  rewrite Sh_of_NaN, calc_Sc_NaN_l in HSc by assumption.
  injection HSc as <-.
  rewrite safe_div_NaN_l in *.
  apply calc_Sp_NaN in HSp; apply calc_Sq_NaN in HSq.
  assert (Et : t_of i = 0) by (unfold t_of; rewrite HD; lra).
  assert (Hlife : not_available (out_life_cycles r) = true)
    by (rewrite Er; now apply calc_life_cycles_na).
  assert (Hst : not_available (out_static_fos r) = true)
    by (rewrite Er; eapply calc_static_fos_na; eauto).
  assert (Hfa : not_available (out_fatigue_fos r) = true)
    by (rewrite Er; eapply calc_fatigue_fos_na; eauto).
  assert (HSe : out_Se r = VFloat (Fin (Se_of i))) by now rewrite Er.
  do 11 (split;
    [ first [ assumption
            | rewrite Er; cbn;
              rewrite ?Et, ?Sh_of_NaN, ?Sl_of_NaN, ?safe_div_NaN_l
                by (assumption || now rewrite HD);
              (reflexivity || assumption) ] |]).
  exists (Se_of i); split; [assumption |]; split.
  - intros Hg; destruct (Hyes Hg) as [HB HA]; rewrite HB, HA.
    split; [eexists; reflexivity | discriminate].
  - intros Hg; destruct (Hno Hg) as (HB & HA & _); split; assumption.
Qed.

Lemma zero_wall_cascade_witness :
  exists r, calculate zero_wall = Ok r /\
    not_available (out_Sh r) = true /\ not_available (out_Sl r) = true /\
    not_available (out_life_cycles r) = true.
Proof.
  destruct (calculate_never_raises zero_wall) as [r Hr].
  destruct (zero_wall_cascade zero_wall r eq_refl Hr)
    as (_ & HSh & HSl & _ & _ & _ & _ & _ & _ & _ & HL & _).
  exists r; split; [exact Hr |].
  split; [exact HSh |]; split; [exact HSl | exact HL].
Defined.

(** ** Monotonicity in the pressure *)

Lemma hoop_with_p (i : inputs) (p : R) :
  in_Do i <> in_D i ->
  hoop (with_p i p) =
  p * ((t_of i + 0.57 * in_D i) / (100 * t_of i)).
Proof.
  intros H; unfold hoop, t_of; cbn; field; lra.
Qed.

Lemma longitudinal_with_p (i : inputs) (p : R) :
  in_Do i * in_Do i <> in_D i * in_D i ->
  longitudinal (with_p i p) =
  p * (in_D i * in_D i / (100 * (in_Do i * in_Do i - in_D i * in_D i))).
Proof.
  intros H; unfold longitudinal; cbn; field; lra.
Qed.

(** C7, as stated, fails: between the pressures -2 and -1 the larger one
    gives the smaller hoop stress in magnitude; and with a zero bore the
    longitudinal stress is 0 at every pressure. *)
Lemma pressure_monotone_as_stated_fails :
  (exists r1 r2 sh1 sh2,
     calculate (with_p nominal (-2)) = Ok r1 /\
     calculate (with_p nominal (-1)) = Ok r2 /\
     out_Sh r1 = VFloat (Fin sh1) /\ out_Sh r2 = VFloat (Fin sh2) /\
     t_of nominal > 0 /\ in_Do nominal > in_D nominal /\
     -2 < -1 /\ Rabs sh2 < Rabs sh1) /\
  (exists r1 r2,
     calculate (with_p at_strength 100) = Ok r1 /\
     calculate (with_p at_strength 200) = Ok r2 /\
     out_Sl r1 = VFloat (Fin 0) /\ out_Sl r2 = VFloat (Fin 0) /\
     t_of at_strength > 0 /\ in_Do at_strength > in_D at_strength).
Proof.
  split.
  - destruct (calculate_never_raises (with_p nominal (-2))) as [r1 H1].
    destruct (calculate_never_raises (with_p nominal (-1))) as [r2 H2].
    destruct (calculate_stresses _ r1 H1) as (E1 & _); [cbn; lra | cbn; lra |].
    destruct (calculate_stresses _ r2 H2) as (E2 & _); [cbn; lra | cbn; lra |].
    exists r1, r2; do 2 eexists.
    repeat split; try eassumption; try (unfold t_of; cbn; lra).
    rewrite !hoop_with_p by (cbn; lra).
    unfold t_of; cbn.
    rewrite !Rabs_left by lra; lra.
  - destruct (calculate_never_raises (with_p at_strength 100)) as [r1 H1].
    destruct (calculate_never_raises (with_p at_strength 200)) as [r2 H2].
    destruct (calculate_stresses _ r1 H1) as (_ & E1 & _);
      [cbn; lra | cbn; lra |].
    destruct (calculate_stresses _ r2 H2) as (_ & E2 & _);
      [cbn; lra | cbn; lra |].
    rewrite longitudinal_with_p in E1, E2 by (cbn; lra).
    exists r1, r2.
    repeat split; try assumption; try (unfold t_of; cbn; lra).
    + rewrite E1; cbn; do 2 f_equal; lra.
    + rewrite E2; cbn; do 2 f_equal; lra.
Qed.

(** C7 (amended): for two records that the calculation has returned for
    inputs that differ only in the pressure, with [Do > D] and pressures
    [0 <= p1 < p2], real hoop and longitudinal stresses are at least as
    large in magnitude for the larger pressure. *)
Theorem pressure_monotone (i : inputs) (p1 p2 : R) (r1 r2 : results)
    (sh1 sh2 sl1 sl2 : R) :
  in_D i < in_Do i ->
  0 <= p1 < p2 ->
  calculate (with_p i p1) = Ok r1 ->
  calculate (with_p i p2) = Ok r2 ->
  out_Sh r1 = VFloat (Fin sh1) -> out_Sh r2 = VFloat (Fin sh2) ->
  out_Sl r1 = VFloat (Fin sl1) -> out_Sl r2 = VFloat (Fin sl2) ->
  Rabs sh1 <= Rabs sh2 /\ Rabs sl1 <= Rabs sl2.
Proof.
  intros HD Hp H1 H2 Eh1 Eh2 El1 El2.
  assert (Hne : in_Do i <> in_D i) by lra.
  destruct (calculate_inv _ r1 H1)
    as (? & ? & ? & ? & ? & ? & ? & _ & _ & _ & _ & _ & _ & _ & E1).
  destruct (calculate_inv _ r2 H2)
    as (? & ? & ? & ? & ? & ? & ? & _ & _ & _ & _ & _ & _ & _ & E2).
  rewrite E1 in Eh1, El1; rewrite E2 in Eh2, El2.
  cbn [out_Sh out_Sl] in Eh1, Eh2, El1, El2.
  injection Eh1 as Eh1; injection Eh2 as Eh2.
  injection El1 as El1; injection El2 as El2.
  rewrite Sh_of_Fin in Eh1, Eh2 by (cbn; assumption).
  injection Eh1 as <-; injection Eh2 as <-.
  assert (Hsq : in_Do i * in_Do i <> in_D i * in_D i).
  { intros E; rewrite Sl_of_NaN in El1 by (cbn; assumption); discriminate. }
  rewrite Sl_of_Fin in El1, El2 by (cbn; assumption).
  injection El1 as <-; injection El2 as <-.
  rewrite !hoop_with_p, !longitudinal_with_p by assumption.
  rewrite !Rabs_mult, !(Rabs_pos_eq p1), !(Rabs_pos_eq p2) by lra.
  split; apply Rmult_le_compat_r; try apply Rabs_pos; lra.
Qed.

Lemma pressure_monotone_witness :
  exists r1 r2 sh1 sh2,
    calculate (with_p nominal 100) = Ok r1 /\
    calculate (with_p nominal 207) = Ok r2 /\
    out_Sh r1 = VFloat (Fin sh1) /\ out_Sh r2 = VFloat (Fin sh2) /\
    Rabs sh1 <= Rabs sh2.
Proof.
  assert (HD : in_D nominal < in_Do nominal) by (cbn; lra).
  assert (Hp : 0 <= 100 < 207) by lra.
  destruct (calculate_never_raises (with_p nominal 100)) as [r1 H1].
  destruct (calculate_never_raises (with_p nominal 207)) as [r2 H2].
  destruct (calculate_stresses _ r1 H1) as (Eh1 & El1 & _);
    [cbn; lra | cbn; lra |].
  destruct (calculate_stresses _ r2 H2) as (Eh2 & El2 & _);
    [cbn; lra | cbn; lra |].
  destruct (pressure_monotone nominal 100 207 r1 r2 _ _ _ _
              HD Hp H1 H2 Eh1 Eh2 El1 El2) as [Hsh _].
  exists r1, r2; do 2 eexists.
  split; [exact H1 |]; split; [exact H2 |].
  split; [exact Eh1 |]; split; [exact Eh2 | exact Hsh].
Defined.

(** ** The unused inputs *)

(** C8: two input records that agree on everything but [d], [dh] and
    [Syt] give the same outcome, hence the same fourteen fields. *)
Theorem unused_inputs (i1 i2 : inputs) :
  same_but_d_dh_Syt i1 i2 -> calculate i1 = calculate i2.
Proof.
  destruct i1, i2; unfold same_but_d_dh_Syt; cbn.
  intros (-> & -> & -> & -> & -> & -> & -> & -> & -> & -> & -> & ->).
  reflexivity.
Qed.

Lemma unused_inputs_witness :
  in_d nominal <> in_d nominal_other_unused /\
  in_dh nominal <> in_dh nominal_other_unused /\
  in_Syt nominal <> in_Syt nominal_other_unused /\
  calculate nominal = calculate nominal_other_unused.
Proof.
  do 3 (split; [cbn; lra |]).
  apply (unused_inputs nominal nominal_other_unused).
  unfold same_but_d_dh_Syt; cbn; repeat split; reflexivity.
Defined.

(** ** The radicand of the combined stress *)

(** C10, as stated, fails on binary64: at the default diameters and the
    pressure 1.6e155 lines 76 and 79 give finite [Sh] and [Sl], no square
    of line 82 raises, but the sum [Sh**2 + Sl**2] overflows, so that the
    radicand and [Sc] are infinite, which [fmt] shows as unavailable. *)
Lemma radicand_overflow_as_stated_fails :
  let t := Binary64.calc_t Binary64.Do_default Binary64.D_default in
  let Sh := Binary64.calc_Sh Binary64.p_large Binary64.D_default t in
  exists Sl,
    Binary64.calc_Sl Binary64.p_large Binary64.D_default Binary64.Do_default
      = Binary64.Value Sl /\
    Binary64.not_available Sh = false /\
    Binary64.not_available Sl = false /\
    Binary64.calc_Sc Sh Sl = Binary64.Value infinity /\
    Binary64.not_available infinity = true.
Proof.
  eexists; repeat split; vm_compute; reflexivity.
Qed.

(** C10 (amended): in a record that the calculation has returned with
    real [Sh] and [Sl], the radicand [Sh**2 + Sl**2 - Sh*Sl] is
    non-negative, the test [Sc_term >= 0] of line 83 succeeds, and [Sc] is
    a float that is not NaN. *)
Theorem radicand_nonnegative (i : inputs) (r : results) (sh sl : R) :
  calculate i = Ok r ->
  out_Sh r = VFloat (Fin sh) -> out_Sl r = VFloat (Fin sl) ->
  0 <= sh * sh + sl * sl - sh * sl /\
  float_ge (Fin (sh * sh + sl * sl - sh * sl)) (Fin 0) = true /\
  exists Sc, out_Sc r = VFloat Sc /\ Sc <> NaN.
Proof.
  intros Hr HSh HSl.
  destruct (calculate_inv i r Hr)
    as (Sc & Sp & Sq & B & A & sf & ff & HSc & _ & _ & _ & _ & _ & _ & ->).
  cbn [out_Sh out_Sl out_Sc] in *.
  injection HSh as HSh; injection HSl as HSl.
  rewrite HSh, HSl, calc_Sc_Fin in HSc; injection HSc as <-.
  pose proof (sq_term_nonneg sh sl) as Hnn.
  split; [assumption |]; split; [now apply Rle_bool_true |].
  eexists; split; [reflexivity | discriminate].
Qed.

Lemma radicand_nonnegative_witness :
  exists r Sc, calculate nominal = Ok r /\
    out_Sc r = VFloat Sc /\ Sc <> NaN.
Proof.
  destruct (calculate_never_raises nominal) as [r Hr].
  destruct (calculate_stresses nominal r Hr) as (HSh & HSl & _);
    [cbn; lra | cbn; lra |].
  destruct (radicand_nonnegative nominal r _ _ Hr HSh HSl)
    as (_ & _ & Sc & HSc & Hn).
  exists r, Sc; split; [exact Hr |]; split; [exact HSc | exact Hn].
Defined.

(** * Further properties of the calculation *)

(** ** The stress fields *)

Lemma calc_Sc_Fin_inv (Sh Sl : pyfloat) (sc : R) :
  calc_Sc Sh Sl = Ok (Fin sc) ->
  exists sh sl, Sh = Fin sh /\ Sl = Fin sl /\
    sc = sqrt (sh * sh + sl * sl - sh * sl).
Proof.
  destruct Sh as [| sh]; [rewrite calc_Sc_NaN_l; discriminate |].
  destruct Sl as [| sl]; [rewrite calc_Sc_NaN_r; discriminate |].
  rewrite calc_Sc_Fin; intros [= <-]; eauto.
Qed.

(** X2: in a record that the calculation has returned for inputs with
    [Do = -D], the longitudinal stress is unavailable, because
    [Do**2 - D**2] is 0 although the wall thickness need not be, and so
    are [Sc], [Sa], [Sm], [Sp], [Sq], both factors of safety and
    [life_cycles]. *)
Theorem opposite_diameters_cascade (i : inputs) (r : results) :
  calculate i = Ok r ->
  in_Do i = - in_D i ->
  not_available (out_Sl r) = true /\
  not_available (out_Sc r) = true /\
  not_available (out_Sa r) = true /\
  not_available (out_Sm r) = true /\
  not_available (out_Sp r) = true /\
  not_available (out_Sq r) = true /\
  not_available (out_static_fos r) = true /\
  not_available (out_fatigue_fos r) = true /\
  not_available (out_life_cycles r) = true.
Proof.
  intros Hr HD.
  assert (Hsq : in_Do i * in_Do i = in_D i * in_D i) by (rewrite HD; ring).
  destruct (calculate_inv i r Hr)
    as (Sc & Sp & Sq & B & A & sf & ff
        & HSc & HSp & HSq & _ & _ & Hsf & Hff & ->).
  rewrite Sl_of_NaN, calc_Sc_NaN_r in HSc by assumption.
  injection HSc as <-.
  rewrite safe_div_NaN_l in *.
  apply calc_Sp_NaN in HSp; apply calc_Sq_NaN in HSq.
  cbn [out_Sl out_Sc out_Sa out_Sm out_Sp out_Sq out_static_fos
       out_fatigue_fos out_life_cycles].
  rewrite ?Sl_of_NaN, ?safe_div_NaN_l by assumption.
  repeat split; try assumption.
  - eapply calc_static_fos_na; eauto.
  - eapply calc_fatigue_fos_na; eauto.
  - now apply calc_life_cycles_na.
Qed.

Lemma opposite_diameters_cascade_witness :
  exists r, calculate opposite_diameters = Ok r /\
    not_available (out_Sl r) = true /\
    not_available (out_life_cycles r) = true.
Proof.
  destruct (calculate_never_raises opposite_diameters) as [r Hr].
  assert (HD : in_Do opposite_diameters = - in_D opposite_diameters)
    by reflexivity.
  destruct (opposite_diameters_cascade _ r Hr HD)
    as (HSl & _ & _ & _ & _ & _ & _ & _ & HL).
  exists r; split; [exact Hr |]; split; [exact HSl | exact HL].
Defined.

Lemma safe_div_fneg (x y : R) :
  safe_div (Fin (- x)) (Fin y) = fneg (safe_div (Fin x) (Fin y)).
Proof.
  unfold safe_div; rewrite !safe_div_with_Fin.
  destruct (Req_bool y 0); [reflexivity |].
  simpl; f_equal; unfold Rdiv; ring.
Qed.

Lemma calc_Sc_fneg (a b : pyfloat) :
  calc_Sc (fneg a) (fneg b) = calc_Sc a b.
Proof.
  destruct a as [| x]; [simpl; now rewrite !calc_Sc_NaN_l |].
  destruct b as [| y]; [simpl; now rewrite !calc_Sc_NaN_r |].
  simpl; rewrite !calc_Sc_Fin; do 3 f_equal; ring.
Qed.

(** X5: reversing the sign of the pressure changes nothing but the signs
    of [Sh] and [Sl]: of two records returned for inputs that differ only
    in the sign of [p], the second has the negated [Sh] and [Sl] of the
    first and the same other twelve fields. *)
Theorem pressure_sign_reversal (i : inputs) (r1 r2 : results) :
  calculate i = Ok r1 ->
  calculate (with_p i (- in_p i)) = Ok r2 ->
  out_Sh r2 = negate (out_Sh r1) /\ out_Sl r2 = negate (out_Sl r1) /\
  out_t r2 = out_t r1 /\ out_Sc r2 = out_Sc r1 /\
  out_Sa r2 = out_Sa r1 /\ out_Sm r2 = out_Sm r1 /\
  out_Se r2 = out_Se r1 /\ out_Sp r2 = out_Sp r1 /\
  out_Sq r2 = out_Sq r1 /\ out_B r2 = out_B r1 /\ out_A r2 = out_A r1 /\
  out_static_fos r2 = out_static_fos r1 /\
  out_fatigue_fos r2 = out_fatigue_fos r1 /\
  out_life_cycles r2 = out_life_cycles r1.
Proof.
  intros H1 H2.
  destruct (calculate_inv i r1 H1)
    as (Sc1 & Sp1 & Sq1 & B1 & A1 & sf1 & ff1
        & HSc1 & HSp1 & HSq1 & HB1 & HA1 & Hsf1 & Hff1 & ->).
  destruct (calculate_inv _ r2 H2)
    as (Sc2 & Sp2 & Sq2 & B2 & A2 & sf2 & ff2
        & HSc2 & HSp2 & HSq2 & HB2 & HA2 & Hsf2 & Hff2 & ->).
  assert (Eh : Sh_of (with_p i (- in_p i)) = fneg (Sh_of i)).
  { unfold Sh_of, calc_Sh, t_of; cbn [in_p in_D in_Do with_p fmul fadd].
    rewrite <- safe_div_fneg; do 2 f_equal; ring. }
  assert (El : Sl_of (with_p i (- in_p i)) = fneg (Sl_of i)).
  { unfold Sl_of; cbn [in_p in_D in_Do with_p].
    rewrite <- safe_div_fneg; do 2 f_equal; ring. }
  rewrite Eh, El, calc_Sc_fneg in HSc2.
  assert (ESc : Sc2 = Sc1) by congruence; subst Sc2.
  change (Se_of (with_p i (- in_p i))) with (Se_of i) in *.
  change (in_Sut (with_p i (- in_p i))) with (in_Sut i) in *.
  change (t_of (with_p i (- in_p i))) with (t_of i).
  assert (ESp : Sp2 = Sp1) by congruence; subst Sp2.
  assert (ESq : Sq2 = Sq1) by congruence; subst Sq2.
  assert (EB : B2 = B1) by congruence; subst B2.
  assert (EA : A2 = A1) by congruence; subst A2.
  assert (Esf : sf2 = sf1) by congruence; subst sf2.
  assert (Eff : ff2 = ff1) by congruence; subst ff2.
  cbn [out_t out_Sh out_Sl out_Sc out_Sa out_Sm out_Se out_Sp out_Sq out_B
       out_A out_static_fos out_fatigue_fos out_life_cycles negate].
  rewrite Eh, El; repeat split.
Qed.

Lemma pressure_sign_reversal_witness :
  exists r1 r2,
    calculate nominal = Ok r1 /\
    calculate (with_p nominal (- in_p nominal)) = Ok r2 /\
    out_Sh r2 = negate (out_Sh r1) /\ out_Sc r2 = out_Sc r1.
Proof.
  destruct (calculate_never_raises nominal) as [r1 H1].
  destruct (calculate_never_raises (with_p nominal (- in_p nominal)))
    as [r2 H2].
  destruct (pressure_sign_reversal nominal r1 r2 H1 H2)
    as (HSh & _ & _ & HSc & _).
  exists r1, r2; split; [exact H1 |]; split; [exact H2 |].
  split; [exact HSh | exact HSc].
Defined.

(** ** The permissible stress and the factors of safety *)

Lemma safe_div_2_Fin_inv (X : pyfloat) (sa : R) :
  safe_div X (Fin 2) = Fin sa -> X = Fin (2 * sa).
Proof.
  destruct X as [| x]; [rewrite safe_div_NaN_l; discriminate |].
  rewrite safe_div_Fin by lra; intros [= <-]; f_equal; lra.
Qed.

Lemma calc_Sp_zero_Se (Sa Sm Sut : pyfloat) :
  calc_Sp (Fin 0) Sa Sm Sut = Ok None.
Proof.
  unfold calc_Sp, safe_div_None, safe_div_with; simpl.
  now rewrite (proj2 (Req_bool_true 0 0) eq_refl).
Qed.

Lemma calc_Sp_zero_Sm (Se Sa Sut : pyfloat) :
  calc_Sp Se Sa (Fin 0) Sut = Ok None.
Proof.
  unfold calc_Sp; destruct (safe_div_None (Fin 1) Se); [| reflexivity].
  now rewrite (proj2 (float_ne_Fin_false 0 0) eq_refl).
Qed.

Lemma calc_Sp_zero_Sut (Se Sa Sm : pyfloat) :
  calc_Sp Se Sa Sm (Fin 0) = Ok None.
Proof.
  unfold calc_Sp; destruct (safe_div_None (Fin 1) Se); [| reflexivity].
  rewrite (proj2 (float_ne_Fin_false 0 0) eq_refl).
  now rewrite andb_false_r.
Qed.

Lemma calc_fos_Fin_inv (S : option pyfloat) (Sa : pyfloat) (f : R) :
  calc_static_fos S Sa = Ok (Some (Fin f)) ->
  exists s sa, S = Some (Fin s) /\ Sa = Fin sa /\ sa <> 0 /\ f = s / sa.
Proof.
  unfold calc_static_fos; destruct S as [s |]; [| discriminate].
  rewrite in_None_0_Some.
  destruct (float_ne Sa (Fin 0)) eqn:E; [| discriminate].
  destruct Sa as [| sa]; [simpl; discriminate |].
  apply float_ne_Fin in E.
  destruct s as [| s]; [rewrite truediv_NaN_l; [discriminate | now apply float_ne_Fin] |].
  rewrite truediv_Fin by assumption; cbn [bind]; intros [= <-].
  exists s, sa; auto.
Qed.

Lemma calc_fatigue_fos_eq (S : option pyfloat) (Sa : pyfloat) :
  calc_fatigue_fos S Sa = calc_static_fos S Sa.
Proof. reflexivity. Qed.

(** The stage equations of a run whose combined stress is the real [sc]. *)
Lemma calculate_inv_Fin (i : inputs) (r : results) (sc : R) :
  calculate i = Ok r -> out_Sc r = VFloat (Fin sc) ->
  0 <= sc /\
  out_Sa r = VFloat (Fin (sc / 2)) /\
  exists Sp Sq static_fos fatigue_fos,
    calc_Sp (Fin (Se_of i)) (Fin (sc / 2)) (Fin (sc / 2)) (Fin (in_Sut i))
      = Ok Sp /\
    calc_Sq (Fin (sc / 2)) (Fin (sc / 2)) (Fin (in_Sut i)) = Ok Sq /\
    calc_static_fos Sp (Fin (sc / 2)) = Ok static_fos /\
    calc_fatigue_fos Sq (Fin (sc / 2)) = Ok fatigue_fos /\
    out_Sp r = of_option Sp /\ out_Sq r = of_option Sq /\
    out_static_fos r = of_option static_fos /\
    out_fatigue_fos r = of_option fatigue_fos.
Proof.
  intros Hr HSc.
  destruct (calculate_inv i r Hr)
    as (Sc & Sp & Sq & B & A & sf & ff
        & HSc' & HSp & HSq & _ & _ & Hsf & Hff & ->).
  cbn [out_Sc out_Sa out_Sp out_Sq out_static_fos out_fatigue_fos] in *.
  injection HSc as ->.
  destruct (calc_Sc_Fin_inv _ _ _ HSc') as (sh & sl & _ & _ & ->).
  rewrite safe_div_Fin in * by lra.
  split; [apply sqrt_pos |]; split; [reflexivity |].
  exists Sp, Sq, sf, ff; repeat split; assumption.
Qed.

(** ** The fatigue factor of safety *)

Lemma calc_Sq_Fin_inv (sa sut sq : R) :
  calc_Sq (Fin sa) (Fin sa) (Fin sut) = Ok (Some (Fin sq)) ->
  sut <> 0 /\ sa <> sut /\ sq = sa / (1 - sa / sut).
Proof.
  intros H.
  destruct (Req_dec_T sut 0) as [-> | Hsut];
    [rewrite calc_Sq_zero_Sut in H; discriminate |].
  destruct (Req_dec_T sa sut) as [-> | Hne];
    [rewrite calc_Sq_boundary in H by assumption; discriminate |].
  rewrite calc_Sq_Fin in H by assumption; injection H as <-; auto.
Qed.

Lemma fatigue_fos_closed (i : inputs) (r : results) (sc : R) :
  calculate i = Ok r -> out_Sc r = VFloat (Fin sc) ->
  sc <> 0 -> in_Sut i <> 0 -> sc / 2 <> in_Sut i ->
  out_Sq r = VFloat (Fin (sc / 2 / (1 - sc / 2 / in_Sut i))) /\
  out_fatigue_fos r = VFloat (Fin (in_Sut i / (in_Sut i - sc / 2))).
Proof.
  intros Hr HSc Hsc Hsut Hne.
  destruct (calculate_inv_Fin i r sc Hr HSc)
    as (_ & _ & Sp & Sq & sf & ff & _ & HSq & _ & Hff & _ & -> & _ & ->).
  rewrite calc_Sq_Fin in HSq by assumption; injection HSq as <-.
  unfold calc_fatigue_fos in Hff; rewrite in_None_0_Some in Hff.
  rewrite (proj2 (float_ne_Fin (sc / 2) 0)) in Hff by lra.
  rewrite truediv_Fin in Hff by lra; injection Hff as <-.
  split; [reflexivity |].
  cbn [of_option]; do 2 f_equal; field.
  repeat split; lra.
Qed.

(** X7: in a record that the calculation has returned, a real
    [fatigue_fos] with [Sut > 0] is never strictly between 0 and 1: the
    amplitude [Sa] is then a positive real different from [Sut], the
    factor is at least 1 when [Sa < Sut] and at most 0 when [Sa > Sut]. *)
Theorem fatigue_fos_range (i : inputs) (r : results) (f : R) :
  calculate i = Ok r ->
  out_fatigue_fos r = VFloat (Fin f) ->
  0 < in_Sut i ->
  (f <= 0 \/ 1 <= f) /\
  exists sa,
    out_Sa r = VFloat (Fin sa) /\ 0 < sa /\ sa <> in_Sut i /\
    (sa < in_Sut i -> 1 <= f) /\
    (in_Sut i < sa -> f <= 0).
Proof.
  intros Hr Hf Hsut.
  destruct (calculate_inv i r Hr)
    as (Sc & Sp & Sq & B & A & sf & ff
        & HSc & _ & HSq & _ & _ & _ & Hff & ->).
  cbn [out_fatigue_fos out_Sa] in *.
  apply of_option_Float in Hf; subst ff.
  rewrite calc_fatigue_fos_eq in Hff.
  destruct (calc_fos_Fin_inv _ _ _ Hff) as (sq & sa & -> & Esa & Hsa & ->).
  rewrite Esa in *.
  apply safe_div_2_Fin_inv in Esa; subst Sc.
  destruct (calc_Sc_Fin_inv _ _ _ HSc) as (sh & sl & _ & _ & Esc).
  pose proof (sqrt_pos (sh * sh + sl * sl - sh * sl)) as Hpos.
  rewrite <- Esc in Hpos.
  destruct (calc_Sq_Fin_inv _ _ _ HSq) as (_ & Hne & ->).
  assert (Hpos' : 0 < sa) by lra.
  assert (Ef : sa / (1 - sa / in_Sut i) / sa = in_Sut i / (in_Sut i - sa))
    by (field; repeat split; lra).
  rewrite Ef.
  assert (Hlo : sa < in_Sut i -> 1 <= in_Sut i / (in_Sut i - sa)).
  { intros Hlt; left.
    apply (Rmult_lt_reg_r (in_Sut i - sa)); [lra |].
    unfold Rdiv; rewrite Rmult_assoc, Rinv_l by lra; lra. }
  assert (Hhi : in_Sut i < sa -> in_Sut i / (in_Sut i - sa) <= 0).
  { intros Hgt; left.
    apply Ropp_lt_cancel; rewrite Ropp_0, <- Rdiv_opp_r.
    apply Rdiv_lt_0_compat; lra. }
  split.
  - destruct (Rlt_dec sa (in_Sut i)); [right; auto | left; apply Hhi; lra].
  - exists sa; repeat split; assumption.
Qed.

Lemma fatigue_fos_range_witness :
  exists r f, calculate nominal = Ok r /\
    out_fatigue_fos r = VFloat (Fin f) /\ (f <= 0 \/ 1 <= f).
Proof.
  destruct (calculate_never_raises nominal) as [r Hr].
  destruct (calculate_stresses nominal r Hr) as (_ & _ & HSc & _);
    [cbn; lra | cbn; lra |].
  pose proof combined_nominal as Hc.
  destruct (fatigue_fos_closed nominal r _ Hr HSc) as [_ Hff];
    try (cbn; lra).
  assert (Hsut : 0 < in_Sut nominal) by (cbn; lra).
  destruct (fatigue_fos_range nominal r _ Hr Hff Hsut) as (Hrange & _).
  exists r; eexists; split; [exact Hr |]; split; [exact Hff | exact Hrange].
Defined.

(** ** The Basquin line *)


Lemma log10_neg_iff (x : R) : 0 < x -> (log10 x < 0 <-> x < 1).
Proof.
  intros Hx; pose proof ln_10_pos as HL; unfold log10; split.
  - intros H.
    assert (Hln : ln x < ln 1).
    { rewrite ln_1; apply Rnot_le_lt; intros Hc.
      assert (0 <= ln x / ln 10)
        by (apply Rmult_le_pos; [assumption | left; now apply Rinv_0_lt_compat]).
      lra. }
    apply ln_lt_inv in Hln; lra.
  - intros H; apply ln_increasing in H; [| assumption]; rewrite ln_1 in H.
    apply Ropp_lt_cancel; rewrite Ropp_0, <- Rdiv_opp_l.
    apply Rdiv_lt_0_compat; lra.
Qed.

Lemma log10_zero_iff (x : R) : 0 < x -> (log10 x = 0 <-> x = 1).
Proof.
  intros Hx; pose proof ln_10_pos as HL; unfold log10; split.
  - intros H.
    assert (Hln : ln x = ln 1).
    { rewrite ln_1.
      apply (Rmult_eq_compat_r (ln 10)) in H.
      unfold Rdiv in H; rewrite Rmult_assoc, Rinv_l in H by lra; lra. }
    apply ln_inv in Hln; lra.
  - intros ->; rewrite ln_1; lra.
Qed.

(** The slope of line 108 and the power of line 113, on the reals. *)
Lemma slope_closed (se u : R) :
  0 < se -> 0 < u ->
  (log10 se - log10 u) / 3 = log10 (se / u) / 3.
Proof. intros; now rewrite log10_div. Qed.



Lemma slope_sign (se u : R) :
  0 < se -> 0 < u ->
  ((log10 se - log10 u) / 3 < 0 <-> se < u) /\
  ((log10 se - log10 u) / 3 = 0 <-> se = u).
Proof.
  intros Hse Hu; rewrite slope_closed by assumption.
  assert (Hx : 0 < se / u) by now apply Rdiv_lt_0_compat.
  assert (H1 : se / u < 1 <-> se < u).
  { split; intros H.
    - apply (Rmult_lt_compat_r u) in H; [| assumption].
      unfold Rdiv in H; rewrite Rmult_assoc, Rinv_l in H by lra; lra.
    - apply (Rmult_lt_reg_r u); [assumption |].
      unfold Rdiv; rewrite Rmult_assoc, Rinv_l by lra; lra. }
  assert (H2 : se / u = 1 <-> se = u).
  { split; intros H.
    - apply (Rmult_eq_compat_r u) in H.
      unfold Rdiv in H; rewrite Rmult_assoc, Rinv_l in H by lra; lra.
    - subst se; field; lra. }
  pose proof (log10_neg_iff _ Hx) as H3.
  pose proof (log10_zero_iff _ Hx) as H4.
  split; split; intros H.
  - apply H1, H3; lra.
  - apply H1, H3 in H; lra.
  - apply H2, H4; lra.
  - apply H2, H4 in H; lra.
Qed.








(** ** Degenerate inputs *)

Lemma calc_life_cycles_zero_base (a b : R) :
  a <> 0 -> b <> 0 ->
  calc_life_cycles (Some (Fin a)) (Some (Fin b)) (Some (Fin 0)) =
  if Rlt_bool b 0 then VFloat NaN else VFloat (Fin 0).
Proof.
  intros Ha Hb; unfold calc_life_cycles.
  rewrite !in_None_0_Some.
  rewrite (proj2 (float_ne_Fin a 0) Ha), (proj2 (float_ne_Fin b 0) Hb).
  cbn [andb in_None negb].
  rewrite !truediv_Fin by assumption; cbn [bind].
  unfold float_pow.
  assert (He : 1 / b <> 0)
    by (unfold Rdiv; rewrite Rmult_1_l; now apply Rinv_neq_0_compat).
  rewrite (proj2 (Req_bool_false (1 / b) 0) He).
  replace (0 / a) with 0 by (unfold Rdiv; ring).
  rewrite (proj2 (Req_bool_true 0 0) eq_refl).
  destruct (Rlt_bool b 0) eqn:E.
  - apply Rlt_bool_true in E.
    replace (Rlt_bool (1 / b) 0) with true; [reflexivity |].
    symmetry; apply Rlt_bool_true.
    unfold Rdiv; rewrite Rmult_1_l; now apply Rinv_neg.
  - apply Rlt_bool_false in E.
    replace (Rlt_bool (1 / b) 0) with false; [reflexivity |].
    symmetry; apply Rlt_bool_false.
    unfold Rdiv; rewrite Rmult_1_l; left; apply Rinv_0_lt_compat; lra.
Qed.

Lemma combined_zero_pressure (i : inputs) :
  in_p i = 0 -> hoop i = 0 /\ longitudinal i = 0 /\ combined i = 0.
Proof.
  intros Hp.
  assert (Eh : hoop i = 0) by (unfold hoop, Rdiv; rewrite Hp; ring).
  assert (El : longitudinal i = 0)
    by (unfold longitudinal, Rdiv; rewrite Hp; ring).
  repeat split; try assumption.
  unfold combined; rewrite Eh, El.
  replace (0 * 0 + 0 * 0 - 0 * 0) with 0 by ring; apply sqrt_0.
Qed.

(** X11: in a record that the calculation has returned with a combined
    stress of 0 (as at zero pressure), [Sa] and [Sm] are 0, [Sp] and both
    factors of safety are [None], [Sq] is 0 when [Sut <> 0], and
    [life_cycles] is NaN when [B] is a negative real, because
    [0.0 ** (1 / B)] raises ZeroDivisionError inside the [try] of line
    128, and 0 when [B] is a positive real. *)
Theorem zero_combined_stress (i : inputs) (r : results) :
  calculate i = Ok r ->
  out_Sc r = VFloat (Fin 0) ->
  out_Sa r = VFloat (Fin 0) /\ out_Sm r = VFloat (Fin 0) /\
  out_Sp r = VNone /\ out_static_fos r = VNone /\
  out_fatigue_fos r = VNone /\
  (in_Sut i <> 0 -> out_Sq r = VFloat (Fin 0)) /\
  (forall b, out_B r = VFloat (Fin b) ->
     (b < 0 -> out_life_cycles r = VFloat NaN) /\
     (0 < b -> out_life_cycles r = VFloat (Fin 0))).
Proof.
  intros Hr HSc.
  destruct (calculate_inv i r Hr)
    as (Sc & Sp & Sq & B & A & sf & ff
        & _ & HSp & HSq & HB & HA & Hsf & Hff & ->).
  cbn [out_Sc out_Sa out_Sm out_Sp out_Sq out_B out_static_fos
       out_fatigue_fos out_life_cycles] in *.
  injection HSc as ->.
  rewrite safe_div_Fin in * by lra.
  replace (0 / 2) with 0 in * by lra.
  rewrite calc_Sp_zero_Sm in HSp; injection HSp as <-.
  simpl in Hsf; injection Hsf as <-.
  assert (Hff' : ff = None).
  { unfold calc_fatigue_fos in Hff; destruct Sq; [| congruence].
    rewrite (in_None_0_Some (Fin 0)) in Hff.
    rewrite (proj2 (float_ne_Fin_false 0 0) eq_refl) in Hff; congruence. }
  subst ff.
  assert (HSq0 : in_Sut i <> 0 -> Sq = Some (Fin 0)).
  { intros Hsut; rewrite calc_Sq_Fin in HSq by (assumption || lra).
    injection HSq as <-; do 2 f_equal; field; lra. }
  do 5 (split; [reflexivity |]).
  split; [intros Hsut; now rewrite (HSq0 Hsut) |].
  intros b Eb; apply of_option_Float in Eb; subst B.
  assert (Hg : 0 < Se_of i /\ 0 < 0.9 * in_Sut i).
  { destruct (Rlt_dec 0 (Se_of i)) as [H1 | H1];
      [destruct (Rlt_dec 0 (0.9 * in_Sut i)) as [H2 | H2]; [tauto |] |];
      rewrite calc_B_None in HB by tauto; discriminate. }
  destruct Hg as [Hse Hu].
  rewrite calc_A_Fin in HA; injection HA as <-.
  rewrite (HSq0 ltac:(lra)).
  pose proof (Rpower_pos 10 (6 * b)) as HP.
  assert (Ha : 0 < Se_of i / Rpower 10 (6 * b))
    by now apply Rdiv_lt_0_compat.
  split; intros Hb.
  - rewrite calc_life_cycles_zero_base by lra.
    now rewrite (proj2 (Rlt_bool_true _ 0) Hb).
  - rewrite calc_life_cycles_zero_base by lra.
    now rewrite (proj2 (Rlt_bool_false _ 0) (Rlt_le _ _ Hb)).
Qed.

Lemma zero_combined_stress_witness :
  exists r, calculate (with_p nominal 0) = Ok r /\
    out_Sc r = VFloat (Fin 0) /\ out_static_fos r = VNone /\
    out_life_cycles r = VFloat NaN.
Proof.
  destruct (calculate_never_raises (with_p nominal 0)) as [r Hr].
  destruct (combined_zero_pressure (with_p nominal 0) eq_refl)
    as (_ & _ & Ec).
  destruct (calculate_stresses _ r Hr) as (_ & _ & HSc & _);
    [cbn; lra | cbn; lra |].
  rewrite Ec in HSc.
  destruct (zero_combined_stress _ r Hr HSc)
    as (_ & _ & _ & Hsf & _ & _ & HL).
  destruct (calculate_basquin _ r Hr) as (Hyes & _ & _).
  assert (Hse : 0 < Se_of (with_p nominal 0)) by (unfold Se_of; cbn; lra).
  assert (Hu : 0 < 0.9 * in_Sut (with_p nominal 0)) by (cbn; lra).
  destruct (Hyes (conj Hse Hu)) as [HB _].
  destruct (HL _ HB) as [Hneg _].
  exists r; split; [exact Hr |]; split; [exact HSc |]; split; [exact Hsf |].
  apply Hneg, (proj1 (slope_sign _ _ Hse Hu)).
  unfold Se_of; cbn; lra.
Defined.

Lemma Se_of_zero_iff (i : inputs) :
  Se_of i = 0 <->
  in_ka i = 0 \/ in_kb i = 0 \/ in_kc i = 0 \/ in_kd i = 0 \/
  in_ke i = 0 \/ in_kh i = 0 \/ in_kl i = 0 \/ in_km i = 0 \/
  in_Sut i = 0.
Proof.
  unfold Se_of; split.
  - intros H.
    do 9 (apply Rmult_integral in H; destruct H as [H | H]; [| tauto]).
    lra.
  - intros H; repeat (destruct H as [H | H]); rewrite H; ring.
Qed.

(** X12: in a record that the calculation has returned for inputs with
    a K-factor or the tensile strength equal to 0, the endurance limit is
    0 and [Sp], [static_fos], [B], [A] and [life_cycles] are all [None],
    whatever the pressure and the diameters are. *)
Theorem zero_endurance_limit (i : inputs) (r : results) :
  calculate i = Ok r ->
  in_ka i = 0 \/ in_kb i = 0 \/ in_kc i = 0 \/ in_kd i = 0 \/
  in_ke i = 0 \/ in_kh i = 0 \/ in_kl i = 0 \/ in_km i = 0 \/
  in_Sut i = 0 ->
  out_Se r = VFloat (Fin 0) /\
  out_Sp r = VNone /\ out_static_fos r = VNone /\
  out_B r = VNone /\ out_A r = VNone /\ out_life_cycles r = VNone.
Proof.
  intros Hr H; apply Se_of_zero_iff in H.
  destruct (calculate_basquin i r Hr) as (_ & Hno & _).
  destruct Hno as (HB & HA & HL); [rewrite H; lra |].
  destruct (calculate_inv i r Hr)
    as (Sc & Sp & Sq & B & A & sf & ff & _ & HSp & _ & _ & _ & Hsf & _ & Er).
  rewrite H, calc_Sp_zero_Se in HSp; injection HSp as <-.
  simpl in Hsf; injection Hsf as <-.
  rewrite Er in *; cbn [out_Se out_Sp out_static_fos] in *.
  rewrite H; repeat split; assumption.
Qed.

Lemma zero_endurance_limit_witness :
  exists r, calculate zero_factor = Ok r /\
    out_Sp r = VNone /\ out_life_cycles r = VNone.
Proof.
  assert (H : in_ka zero_factor = 0 \/ in_kb zero_factor = 0 \/
              in_kc zero_factor = 0 \/ in_kd zero_factor = 0 \/
              in_ke zero_factor = 0 \/ in_kh zero_factor = 0 \/
              in_kl zero_factor = 0 \/ in_km zero_factor = 0 \/
              in_Sut zero_factor = 0)
    by (right; right; left; reflexivity).
  destruct (calculate_never_raises zero_factor) as [r Hr].
  destruct (zero_endurance_limit zero_factor r Hr H)
    as (_ & HSp & _ & _ & _ & HL).
  exists r; split; [exact Hr |]; split; [exact HSp | exact HL].
Defined.

(** X13: in a record that the calculation has returned for inputs with
    a zero tensile strength, every field computed from [Sut] behind a
    guard is [None]: [Sp], [Sq], [B], [A], both factors of safety and
    [life_cycles]; the endurance limit is 0. *)
Theorem zero_tensile_strength (i : inputs) (r : results) :
  calculate i = Ok r ->
  in_Sut i = 0 ->
  out_Se r = VFloat (Fin 0) /\
  out_Sp r = VNone /\ out_Sq r = VNone /\
  out_B r = VNone /\ out_A r = VNone /\
  out_static_fos r = VNone /\ out_fatigue_fos r = VNone /\
  out_life_cycles r = VNone.
Proof.
  intros Hr H.
  assert (HSe : Se_of i = 0) by (unfold Se_of; rewrite H; ring).
  destruct (calculate_basquin i r Hr) as (_ & Hno & _).
  destruct Hno as (HB & HA & HL); [rewrite HSe; lra |].
  destruct (calculate_inv i r Hr)
    as (Sc & Sp & Sq & B & A & sf & ff
        & _ & HSp & HSq & _ & _ & Hsf & Hff & Er).
  rewrite H in HSp, HSq.
  rewrite calc_Sp_zero_Sut in HSp; injection HSp as <-.
  rewrite calc_Sq_zero_Sut in HSq; injection HSq as <-.
  simpl in Hsf, Hff; injection Hsf as <-; injection Hff as <-.
  rewrite Er in *;
    cbn [out_Se out_Sp out_Sq out_static_fos out_fatigue_fos] in *.
  rewrite HSe; repeat split; assumption.
Qed.

Lemma zero_tensile_strength_witness :
  exists r, calculate zero_strength = Ok r /\
    out_Sq r = VNone /\ out_fatigue_fos r = VNone.
Proof.
  destruct (calculate_never_raises zero_strength) as [r Hr].
  destruct (zero_tensile_strength zero_strength r Hr eq_refl)
    as (_ & _ & HSq & _ & _ & _ & Hff & _).
  exists r; split; [exact Hr |]; split; [exact HSq | exact Hff].
Defined.

(** ** What each field depends on *)

(** X14: [t] and the five stresses depend on the pressure and the two
    diameters only: two records that agree on [p], [D] and [Do] have the
    same [t], [Sh], [Sl], [Sc], [Sa] and [Sm], whatever their tensile
    strengths and K-factors. *)
Theorem stresses_depend_on_geometry (i1 i2 : inputs) (r1 r2 : results) :
  same_geometry i1 i2 ->
  calculate i1 = Ok r1 -> calculate i2 = Ok r2 ->
  out_t r1 = out_t r2 /\ out_Sh r1 = out_Sh r2 /\ out_Sl r1 = out_Sl r2 /\
  out_Sc r1 = out_Sc r2 /\ out_Sa r1 = out_Sa r2 /\ out_Sm r1 = out_Sm r2.
Proof.
  intros (Hp & HD & HDo) H1 H2.
  destruct (calculate_inv i1 r1 H1)
    as (Sc1 & ? & ? & ? & ? & ? & ? & HSc1 & _ & _ & _ & _ & _ & _ & ->).
  destruct (calculate_inv i2 r2 H2)
    as (Sc2 & ? & ? & ? & ? & ? & ? & HSc2 & _ & _ & _ & _ & _ & _ & ->).
  cbn [out_t out_Sh out_Sl out_Sc out_Sa out_Sm].
  assert (Et : t_of i1 = t_of i2) by (unfold t_of; now rewrite HD, HDo).
  assert (Eh : Sh_of i1 = Sh_of i2) by (unfold Sh_of; now rewrite Hp, HD, Et).
  assert (El : Sl_of i1 = Sl_of i2) by (unfold Sl_of; now rewrite Hp, HD, HDo).
  rewrite Eh, El in HSc1.
  assert (Ec : Sc1 = Sc2) by congruence.
  rewrite Et, Eh, El, Ec; repeat split.
Qed.

Lemma stresses_depend_on_geometry_witness :
  exists r1 r2,
    calculate nominal = Ok r1 /\ calculate other_material = Ok r2 /\
    in_Sut nominal <> in_Sut other_material /\
    out_Sc r1 = out_Sc r2.
Proof.
  destruct (calculate_never_raises nominal) as [r1 H1].
  destruct (calculate_never_raises other_material) as [r2 H2].
  assert (Hg : same_geometry nominal other_material)
    by (unfold same_geometry; cbn; repeat split; reflexivity).
  destruct (stresses_depend_on_geometry _ _ r1 r2 Hg H1 H2)
    as (_ & _ & _ & HSc & _).
  exists r1, r2; split; [exact H1 |]; split; [exact H2 |].
  split; [cbn; lra | exact HSc].
Defined.

(** X15: [Se], [B] and [A] depend on the tensile strength and the
    K-factors only: two records that agree on these have the same [Se],
    [B] and [A], whatever their pressures and diameters. *)
Theorem basquin_depends_on_material (i1 i2 : inputs) (r1 r2 : results) :
  same_material i1 i2 ->
  calculate i1 = Ok r1 -> calculate i2 = Ok r2 ->
  out_Se r1 = out_Se r2 /\ out_B r1 = out_B r2 /\ out_A r1 = out_A r2.
Proof.
  intros (HS & Ha & Hb & Hc & Hd & He & Hh & Hl & Hm) H1 H2.
  destruct (calculate_inv i1 r1 H1)
    as (? & ? & ? & B1 & A1 & ? & ? & _ & _ & _ & HB1 & HA1 & _ & _ & ->).
  destruct (calculate_inv i2 r2 H2)
    as (? & ? & ? & B2 & A2 & ? & ? & _ & _ & _ & HB2 & HA2 & _ & _ & ->).
  cbn [out_Se out_B out_A].
  assert (ESe : Se_of i1 = Se_of i2)
    by (unfold Se_of; now rewrite HS, Ha, Hb, Hc, Hd, He, Hh, Hl, Hm).
  rewrite ESe, HS in HB1; rewrite ESe in HA1.
  assert (EB : B1 = B2) by congruence.
  rewrite EB in HA1.
  assert (EA : A1 = A2) by congruence.
  rewrite ESe, EB, EA; repeat split.
Qed.

Lemma basquin_depends_on_material_witness :
  exists r1 r2,
    calculate nominal = Ok r1 /\ calculate other_geometry = Ok r2 /\
    in_p nominal <> in_p other_geometry /\
    out_B r1 = out_B r2 /\ out_A r1 = out_A r2.
Proof.
  destruct (calculate_never_raises nominal) as [r1 H1].
  destruct (calculate_never_raises other_geometry) as [r2 H2].
  assert (Hm : same_material nominal other_geometry)
    by (unfold same_material; cbn; repeat split; reflexivity).
  destruct (basquin_depends_on_material _ _ r1 r2 Hm H1 H2)
    as (_ & HB & HA).
  exists r1, r2; split; [exact H1 |]; split; [exact H2 |].
  split; [cbn; lra |]; split; [exact HB | exact HA].
Defined.

(** ** The slider ranges *)

Lemma mult_unit_bound (x m a : R) :
  0 <= x <= m -> 0 <= a <= 1 -> 0 <= x * a <= m.
Proof. intros [H1 H2] [H3 H4]; split; nra. Qed.

(** X16: in a record that the calculation has returned for K-factors
    within the ranges of their sliders (lines 62-69) and a non-negative
    tensile strength, the endurance limit lies between 0 and [Sut]: the
    factor 0.5 absorbs the upper end 2 of the surface hardening slider. *)
Theorem endurance_limit_range (i : inputs) (r : results) (se : R) :
  calculate i = Ok r ->
  out_Se r = VFloat (Fin se) ->
  in_slider_ranges i -> 0 <= in_Sut i ->
  0 <= se <= in_Sut i.
Proof.
  intros Hr HSe (Ha & Hb & Hc & Hd & He & Hh & Hl & Hm) HS.
  destruct (calculate_t_Se i r Hr) as [_ HSe'].
  rewrite HSe' in HSe; injection HSe as <-.
  unfold Se_of.
  assert (H1 : 0 <= 0.5 * in_ka i <= 0.5)
    by (apply mult_unit_bound; lra).
  pose proof (mult_unit_bound _ _ _ H1 Hb) as H2.
  pose proof (mult_unit_bound _ _ _ H2 Hc) as H3.
  pose proof (mult_unit_bound _ _ _ H3 Hd) as H4.
  pose proof (mult_unit_bound _ _ _ H4 He) as H5.
  assert (H6 : 0 <= 0.5 * in_ka i * in_kb i * in_kc i * in_kd i * in_ke i
                    * in_kh i <= 1) by (split; nra).
  pose proof (mult_unit_bound _ _ _ H6 Hl) as H7.
  pose proof (mult_unit_bound _ _ _ H7 Hm) as H8.
  split; nra.
Qed.

Lemma endurance_limit_range_witness :
  exists r se, calculate nominal = Ok r /\
    out_Se r = VFloat (Fin se) /\ 0 <= se <= in_Sut nominal.
Proof.
  destruct (calculate_never_raises nominal) as [r Hr].
  destruct (calculate_t_Se nominal r Hr) as [_ HSe].
  assert (Hk : in_slider_ranges nominal)
    by (unfold in_slider_ranges; cbn; repeat split; lra).
  assert (HS : 0 <= in_Sut nominal) by (cbn; lra).
  exists r, (Se_of nominal); split; [exact Hr |]; split; [exact HSe |].
  exact (endurance_limit_range nominal r _ Hr HSe Hk HS).
Defined.

